(** * GoHighLevel MCP server: tool registry, classifier and dispatch router

    A shallow embedding of [src/server.ts] (stdio transport),
    [src/http-server.ts] (HTTP/SSE transport) and [src/handlers/describe.ts]
    (the describe handler), with the properties of the tool catalog, the
    category classifier and the dispatch chain stated over it. *)

From Stdlib Require Import String Ascii List Bool Arith NArith Lia.
From Stdlib Require Import Sorted Permutation DecimalString.
Import ListNotations.
Local Open Scope list_scope.
Local Open Scope string_scope.

(* ================================================================== *)
(** * JavaScript strings and arrays of strings *)
(* ================================================================== *)

(** A JavaScript string is modelled by a [string]: one character per code
    unit, for code units below 256. *)

(** [String.prototype.toLowerCase] on one code unit: the capital letters of
    that range are A-Z, and U+00C0-U+00DE without the multiplication sign. *)
Definition toLowerChar (c : ascii) : ascii :=
  let n := nat_of_ascii c in
  if (Nat.leb 65 n && Nat.leb n 90)
     || (Nat.leb 192 n && Nat.leb n 222 && negb (Nat.eqb n 215))
  then ascii_of_nat (n + 32)
  else c.

Fixpoint toLowerCase (s : string) : string :=
  match s with
  | EmptyString => EmptyString
  | String c s' => String (toLowerChar c) (toLowerCase s')
  end.

(** [s.includes(sub)]: [sub] occurs in [s] at some position. *)
Fixpoint strIncludes (s sub : string) : bool :=
  if prefix sub s then true
  else match s with
       | EmptyString => false
       | String _ s' => strIncludes s' sub
       end.

(** [arr.includes(x)] on an array of strings. *)
Definition includes (arr : list string) (x : string) : bool :=
  existsb (fun y => y =? x) arr.

(** [arr.find(p)]: the first element satisfying [p], if any. *)
Definition arrFind {A : Type} (p : A -> bool) (arr : list A) : option A :=
  find p arr.

(** [arr.slice(0, n)]. *)
Definition slice0 {A : Type} (n : nat) (arr : list A) : list A := firstn n arr.

(** [arr.sort()] with no comparator: strings are compared code unit by code
    unit. The result of a sort by a total order whose equivalent elements
    are equal does not depend on the algorithm; this one inserts. *)
Fixpoint insertSorted (x : string) (l : list string) : list string :=
  match l with
  | [] => [x]
  | y :: l' => if String.leb x y then x :: l else y :: insertSorted x l'
  end.

Definition arrSort (arr : list string) : list string :=
  fold_right insertSorted [] arr.

Definition newline : string := String (ascii_of_nat 10) EmptyString.

Fixpoint join (sep : string) (parts : list string) : string :=
  match parts with
  | [] => ""
  | [p] => p
  | p :: rest => p ++ sep ++ join sep rest
  end.

(* ================================================================== *)
(** * JSON values and [JSON.stringify(value, null, 2)] *)
(* ================================================================== *)

(** A number carries its decimal rendering ([Number::toString]); an object
    carries its own properties in enumeration order. *)
#[warnings="-register-all"]
Inductive JSON : Type :=
| JNull
| JBool (b : bool)
| JNumber (lit : string)
| JString (s : string)
| JArray (items : list JSON)
| JObject (props : list (string * JSON)).

(** Truthiness of a value, as [if (v)] and [v || d] test it. *)
Definition truthy (v : JSON) : bool :=
  match v with
  | JNull => false
  | JBool b => b
  | JNumber lit => negb (lit =? "0")
  | JString s => negb (s =? "")
  | JArray _ | JObject _ => true
  end.

Fixpoint assoc {A : Type} (k : string) (kvs : list (string * A)) : option A :=
  match kvs with
  | [] => None
  | (k', v) :: rest => if k' =? k then Some v else assoc k rest
  end.

(** [obj[k]] on a value read from JSON: [None] stands for [undefined]. *)
Definition getProp (k : string) (v : JSON) : option JSON :=
  match v with
  | JObject props => assoc k props
  | _ => None
  end.

(** An array index: a canonical numeric string below 2^32 - 1. *)
Definition isDigit (c : ascii) : bool :=
  let n := nat_of_ascii c in Nat.leb 48 n && Nat.leb n 57.

Fixpoint digitsValue (acc : N) (s : string) : option N :=
  match s with
  | EmptyString => Some acc
  | String c s' =>
      if isDigit c then
        digitsValue (acc * 10 + N.of_nat (nat_of_ascii c - 48))%N s'
      else None
  end.

Definition arrayIndex (k : string) : option N :=
  match k with
  | EmptyString => None
  | String c rest =>
      if Nat.eqb (nat_of_ascii c) 48 && negb (rest =? "") then None
      else match digitsValue 0%N k with
           | Some i => if N.ltb i 4294967295%N then Some i else None
           | None => None
           end
  end.

(** The value of an existing key is replaced where the key stands. *)
Fixpoint replaceProp {A : Type} (k : string) (v : A)
  (kvs : list (string * A)) : list (string * A) :=
  match kvs with
  | [] => []
  | (k', v') :: rest =>
      if k' =? k then (k', v) :: rest else (k', v') :: replaceProp k v rest
  end.

(** A new array index goes before the first key that is a larger index or
    is not an index. *)
Fixpoint insertIndex {A : Type} (i : N) (k : string) (v : A)
  (kvs : list (string * A)) : list (string * A) :=
  match kvs with
  | [] => [(k, v)]
  | (k', v') :: rest =>
      match arrayIndex k' with
      | Some j =>
          if N.ltb i j then (k, v) :: kvs
          else (k', v') :: insertIndex i k v rest
      | None => (k, v) :: kvs
      end
  end.

(** [obj[k] = v] on an object made by a literal and by such assignments. The
    key [__proto__] reaches the setter of [Object.prototype] and creates no
    own property; an existing key keeps its place; a new key is enumerated
    among the array indices in ascending order, or after all other keys. *)
Definition setProp {A : Type} (k : string) (v : A) (kvs : list (string * A))
  : list (string * A) :=
  if k =? "__proto__" then kvs
  else match assoc k kvs with
       | Some _ => replaceProp k v kvs
       | None =>
           match arrayIndex k with
           | Some i => insertIndex i k v kvs
           | None => (kvs ++ [(k, v)])%list
           end
       end.

Definition hexDigit (n : nat) : ascii :=
  if Nat.ltb n 10 then ascii_of_nat (48 + n) else ascii_of_nat (87 + n).

(** One code unit of [QuoteJSONString]. *)
Definition quoteChar (c : ascii) : string :=
  let n := nat_of_ascii c in
  if Nat.eqb n 8 then "\b"
  else if Nat.eqb n 9 then "\t"
  else if Nat.eqb n 10 then "\n"
  else if Nat.eqb n 12 then "\f"
  else if Nat.eqb n 13 then "\r"
  else if Nat.eqb n 34 then String "\"%char (String c EmptyString)
  else if Nat.eqb n 92 then "\\"
  else if Nat.ltb n 32 then
    "\u00" ++ String (hexDigit (n / 16)) (String (hexDigit (n mod 16)) "")
  else String c EmptyString.

Fixpoint quoteBody (s : string) : string :=
  match s with
  | EmptyString => EmptyString
  | String c s' => quoteChar c ++ quoteBody s'
  end.

Definition dquote : string := String (ascii_of_nat 34) EmptyString.

Definition quoteJSONString (s : string) : string :=
  dquote ++ quoteBody s ++ dquote.

Definition gap : string := "  ".

(** [SerializeJSONProperty] with the two-space gap; [indent] is the current
    indentation. *)
Fixpoint serialize (indent : string) (v : JSON) : string :=
  match v with
  | JNull => "null"
  | JBool true => "true"
  | JBool false => "false"
  | JNumber lit => lit
  | JString s => quoteJSONString s
  | JArray items =>
      let inner := indent ++ gap in
      match items with
      | [] => "[]"
      | _ => "[" ++ newline ++ inner
             ++ join ("," ++ newline ++ inner) (map (serialize inner) items)
             ++ newline ++ indent ++ "]"
      end
  | JObject props =>
      let inner := indent ++ gap in
      match props with
      | [] => "{}"
      | _ => "{" ++ newline ++ inner
             ++ join ("," ++ newline ++ inner)
                  (map (fun kv => match kv with
                                  | (k, x) => quoteJSONString k ++ ": "
                                              ++ serialize inner x
                                  end) props)
             ++ newline ++ indent ++ "}"
      end
  end.

Definition JSON_stringify (v : JSON) : string := serialize "" v.

(* ================================================================== *)
(** * Capability groups and tool definitions *)
(* ================================================================== *)

(** The nineteen tool classes both servers construct in [initializeTools]. *)
Inductive Group : Type :=
| ContactTools | ConversationTools | BlogTools | OpportunityTools
| CalendarTools | EmailTools | LocationTools | EmailISVTools
| SocialMediaTools | MediaTools | ObjectTools | AssociationTools
| CustomFieldV2Tools | WorkflowTools | SurveyTools | StoreTools
| ProductsTools | PaymentsTools | InvoicesTools.

Definition Group_eqb (g h : Group) : bool :=
  match g, h with
  | ContactTools, ContactTools | ConversationTools, ConversationTools
  | BlogTools, BlogTools | OpportunityTools, OpportunityTools
  | CalendarTools, CalendarTools | EmailTools, EmailTools
  | LocationTools, LocationTools | EmailISVTools, EmailISVTools
  | SocialMediaTools, SocialMediaTools | MediaTools, MediaTools
  | ObjectTools, ObjectTools | AssociationTools, AssociationTools
  | CustomFieldV2Tools, CustomFieldV2Tools | WorkflowTools, WorkflowTools
  | SurveyTools, SurveyTools | StoreTools, StoreTools
  | ProductsTools, ProductsTools | PaymentsTools, PaymentsTools
  | InvoicesTools, InvoicesTools => true
  | _, _ => false
  end.

(** The groups in the order [getAllTools] spreads them and the call handler
    tests them. *)
Definition allGroups : list Group :=
  [ ContactTools; ConversationTools; BlogTools; OpportunityTools;
    CalendarTools; EmailTools; LocationTools; EmailISVTools;
    SocialMediaTools; MediaTools; ObjectTools; AssociationTools;
    CustomFieldV2Tools; WorkflowTools; SurveyTools; StoreTools;
    ProductsTools; PaymentsTools; InvoicesTools ].

(** The part of [inputSchema] the servers read: [properties] ([None] when
    absent) and [required], an array of field names ([None] when absent). *)
Record InputSchema : Type := {
  properties : option (list (string * JSON));
  required : option (list string)
}.

(** [ToolDefinition] of [src/handlers/describe.ts]; [inputSchema] is [None]
    for a missing schema, which [tool.inputSchema?.properties] allows. *)
Record ToolDefinition : Type := {
  name : string;
  description : option string;
  inputSchema : option InputSchema;
  annotations : option JSON
}.

(* ================================================================== *)
(** * Handlers: calls to the groups, and exceptions *)
(* ================================================================== *)

(** One call of a group's execute method ([executeTool],
    [executeAssociationTool], [handleToolCall], ...). *)
Record Call : Type := {
  callee : Group;
  calleeName : string;
  calleeArgs : JSON
}.

(** A thrown value: an [Error] instance with its [name] and [message], or
    any other value with its string conversion. *)
Inductive Thrown : Type :=
| ErrorInstance (ename message : string)
| NonError (rendered : string).

(** Template-literal conversion of a caught value: [Error.prototype.toString]
    for an error. *)
Definition renderThrown (e : Thrown) : string :=
  match e with
  | ErrorInstance n m =>
      if n =? "" then m else if m =? "" then n else n ++ ": " ++ m
  | NonError r => r
  end.

(** [new Error(message)]. *)
Definition newError (message : string) : Thrown := ErrorInstance "Error" message.

(** The protocol error codes of the MCP SDK. *)
Inductive ErrorCode : Type :=
| ConnectionClosed | RequestTimeout | ParseError | InvalidRequest
| MethodNotFound | InvalidParams | InternalError.

(** [new McpError(code, message)]. *)
Record McpError : Type := {
  code : ErrorCode;
  mcpMessage : string
}.

(** An async handler body: it runs from the log of the group calls made so
    far, extends the log, and returns a value or throws an [E]. *)
Definition Async (E A : Type) : Type := list Call -> (E + A) * list Call.

Definition ret {E A : Type} (a : A) : Async E A := fun log => (inr a, log).

Definition throw {E A : Type} (e : E) : Async E A := fun log => (inl e, log).

Definition bind {E A B : Type} (m : Async E A) (k : A -> Async E B)
  : Async E B :=
  fun log =>
    match m log with
    | (inl e, log') => (inl e, log')
    | (inr a, log') => k a log'
    end.

(** [try { body } catch (error) { handler }]. *)
Definition tryCatch {E E' A : Type} (body : Async E A)
  (handler : E -> Async E' A) : Async E' A :=
  fun log =>
    match body log with
    | (inl e, log') => handler e log'
    | (inr a, log') => (inr a, log')
    end.

Notation "x <- m ;; k" := (bind m (fun x => k))
  (at level 61, m at next level, right associativity).

(** What a group answers to a call, given the calls made before it. *)
Definition Behaviour : Type :=
  list Call -> Group -> string -> JSON -> Thrown + JSON.

(** [await this.<group>.execute...(name, args)]. *)
Definition execute (behaviour : Behaviour) (g : Group) (nm : string)
  (args : JSON) : Async Thrown JSON :=
  fun log =>
    (behaviour log g nm args,
     (log ++ [{| callee := g; calleeName := nm; calleeArgs := args |}])%list).

(** [args || {}] for the optional [arguments] record of a call request. *)
Definition orEmpty (args : option (list (string * JSON))) : JSON :=
  match args with
  | Some props => JObject props
  | None => JObject []
  end.

(** The success envelope. *)
Record TextContent : Type := {
  type : string;
  text : string
}.

Record CallToolResult : Type := {
  content : list TextContent
}.

(** What both servers do with any group's list: [getAllTools]. *)
Definition concatGroups (defs : Group -> list ToolDefinition)
  : list ToolDefinition :=
  (defs ContactTools ++ defs ConversationTools ++ defs BlogTools
   ++ defs OpportunityTools ++ defs CalendarTools ++ defs EmailTools
   ++ defs LocationTools ++ defs EmailISVTools ++ defs SocialMediaTools
   ++ defs MediaTools ++ defs ObjectTools ++ defs AssociationTools
   ++ defs CustomFieldV2Tools ++ defs WorkflowTools ++ defs SurveyTools
   ++ defs StoreTools ++ defs ProductsTools ++ defs PaymentsTools
   ++ defs InvoicesTools)%list.

(* ================================================================== *)
(** * The process environment and the client configuration *)
(* ================================================================== *)

(** [process.env]: a variable is a string or is not set. *)
Definition Env : Type := string -> option string.

(** [process.env.X || d]: a variable that is not set or is empty gives
    the default. *)
Definition envOr (v : option string) (d : string) : string :=
  match v with
  | Some s => if s =? "" then d else s
  | None => d
  end.

(** [GHLConfig], as both servers fill it in. *)
Record GHLConfig : Type := {
  accessToken : string;
  baseUrl : string;
  version : string;
  locationId : string
}.

(** The string conversion of an array length in a template literal. *)
Definition numberToString (n : nat) : string :=
  NilZero.string_of_uint (Nat.to_uint n).

(* ================================================================== *)
(** * Category buckets *)
(* ================================================================== *)

(** The [categories] record of [categorizeTools]: a [Record<string,
    string[]>], with its keys in insertion order as [Object.entries] lists
    them. *)
Definition Categories : Type := list (string * list string).

Definition emptyCategories : Categories :=
  [ ("Contact Management", []);
    ("Messaging & Communication", []);
    ("Sales & Opportunities", []);
    ("Calendar & Appointments", []);
    ("Payments & Billing", []);
    ("Marketing & Social Media", []);
    ("Business Operations", []);
    ("Custom Objects & Data", []);
    ("Other", []) ].

(** [categories[label].push(x)]. Every label the classifiers push to is a
    key of [emptyCategories]; a missing key (a [TypeError] in the source)
    leaves the record as it is. *)
Fixpoint push (label x : string) (cats : Categories) : Categories :=
  match cats with
  | [] => []
  | (l, xs) :: rest =>
      if l =? label then (l, (xs ++ [x])%list) :: rest
      else (l, xs) :: push label x rest
  end.

(** One element of the array [categorizeTools] returns. *)
Record Category : Type := {
  catName : string;
  count : nat;
  tools : list string
}.

(** [Object.entries(categories).filter(...).map(...)]. *)
Definition finishCategories (categories : Categories) : list Category :=
  map (fun entry => match entry with
                    | (nm, ts) =>
                        {| catName := nm; count := length ts; tools := arrSort ts |}
                    end)
      (filter (fun entry => match entry with
                            | (_, ts) => Nat.ltb 0 (length ts)
                            end) categories).

(* ================================================================== *)
(** * [src/server.ts]: the stdio server *)
(* ================================================================== *)

Module Stdio.

(** The membership tests of [GHLMCPServer], with their inline name arrays. *)

Definition contactToolNames : list string :=
  [ "create_contact"; "search_contacts"; "get_contact"; "update_contact";
    "add_contact_tags"; "remove_contact_tags"; "delete_contact";
    "get_contact_tasks"; "create_contact_task"; "get_contact_task";
    "update_contact_task"; "delete_contact_task"; "update_task_completion";
    "get_contact_notes"; "create_contact_note"; "get_contact_note";
    "update_contact_note"; "delete_contact_note"; "upsert_contact";
    "get_duplicate_contact"; "get_contacts_by_business";
    "get_contact_appointments"; "bulk_update_contact_tags";
    "bulk_update_contact_business"; "add_contact_followers";
    "remove_contact_followers"; "add_contact_to_campaign";
    "remove_contact_from_campaign"; "remove_contact_from_all_campaigns";
    "add_contact_to_workflow"; "remove_contact_from_workflow" ].

Definition isContactTool (name : string) : bool := includes contactToolNames name.

Definition conversationToolNames : list string :=
  [ "send_sms"; "send_email"; "search_conversations"; "get_conversation";
    "create_conversation"; "update_conversation"; "delete_conversation";
    "get_recent_messages"; "get_email_message"; "get_message";
    "upload_message_attachments"; "update_message_status";
    "add_inbound_message"; "add_outbound_call"; "get_message_recording";
    "get_message_transcription"; "download_transcription";
    "cancel_scheduled_message"; "cancel_scheduled_email"; "live_chat_typing" ].

Definition isConversationTool (name : string) : bool := includes conversationToolNames name.

Definition blogToolNames : list string :=
  [ "create_blog_post"; "update_blog_post"; "get_blog_posts";
    "get_blog_sites"; "get_blog_authors"; "get_blog_categories";
    "check_url_slug" ].

Definition isBlogTool (name : string) : bool := includes blogToolNames name.

Definition opportunityToolNames : list string :=
  [ "search_opportunities"; "get_pipelines"; "get_opportunity";
    "create_opportunity"; "update_opportunity_status"; "delete_opportunity";
    "update_opportunity"; "upsert_opportunity"; "add_opportunity_followers";
    "remove_opportunity_followers" ].

Definition isOpportunityTool (name : string) : bool := includes opportunityToolNames name.

Definition calendarToolNames : list string :=
  [ "get_calendar_groups"; "get_calendars"; "create_calendar";
    "get_calendar"; "update_calendar"; "delete_calendar";
    "get_calendar_events"; "get_free_slots"; "create_appointment";
    "get_appointment"; "update_appointment"; "delete_appointment";
    "create_block_slot"; "update_block_slot" ].

Definition isCalendarTool (name : string) : bool := includes calendarToolNames name.

Definition emailToolNames : list string :=
  [ "get_email_campaigns"; "create_email_template"; "get_email_templates";
    "update_email_template"; "delete_email_template" ].

Definition isEmailTool (name : string) : bool := includes emailToolNames name.

Definition locationToolNames : list string :=
  [ "search_locations"; "get_location"; "create_location";
    "update_location"; "delete_location"; "get_location_tags";
    "create_location_tag"; "get_location_tag"; "update_location_tag";
    "delete_location_tag"; "search_location_tasks";
    "get_location_custom_fields"; "create_location_custom_field";
    "get_location_custom_field"; "update_location_custom_field";
    "delete_location_custom_field"; "get_location_custom_values";
    "create_location_custom_value"; "get_location_custom_value";
    "update_location_custom_value"; "delete_location_custom_value";
    "get_location_templates"; "delete_location_template"; "get_timezones" ].

Definition isLocationTool (name : string) : bool := includes locationToolNames name.

Definition isEmailISVTool (name : string) : bool := name =? "verify_email".

Definition socialMediaToolNames : list string :=
  [ "search_social_posts"; "create_social_post"; "get_social_post";
    "update_social_post"; "delete_social_post"; "bulk_delete_social_posts";
    "get_social_accounts"; "delete_social_account"; "upload_social_csv";
    "get_csv_upload_status"; "set_csv_accounts"; "get_social_categories";
    "get_social_category"; "get_social_tags"; "get_social_tags_by_ids";
    "start_social_oauth"; "get_platform_accounts" ].

Definition isSocialMediaTool (name : string) : bool := includes socialMediaToolNames name.

Definition mediaToolNames : list string :=
  [ "get_media_files"; "upload_media_file"; "delete_media_file" ].

Definition isMediaTool (name : string) : bool := includes mediaToolNames name.

Definition objectToolNames : list string :=
  [ "get_all_objects"; "create_object_schema"; "get_object_schema";
    "update_object_schema"; "create_object_record"; "get_object_record";
    "update_object_record"; "delete_object_record"; "search_object_records" ].

Definition isObjectTool (name : string) : bool := includes objectToolNames name.

Definition associationToolNames : list string :=
  [ "ghl_get_all_associations"; "ghl_create_association";
    "ghl_get_association_by_id"; "ghl_update_association";
    "ghl_delete_association"; "ghl_get_association_by_key";
    "ghl_get_association_by_object_key"; "ghl_create_relation";
    "ghl_get_relations_by_record"; "ghl_delete_relation" ].

Definition isAssociationTool (name : string) : bool := includes associationToolNames name.

Definition customFieldV2ToolNames : list string :=
  [ "ghl_get_custom_field_by_id"; "ghl_create_custom_field";
    "ghl_update_custom_field"; "ghl_delete_custom_field";
    "ghl_get_custom_fields_by_object_key"; "ghl_create_custom_field_folder";
    "ghl_update_custom_field_folder"; "ghl_delete_custom_field_folder" ].

Definition isCustomFieldV2Tool (name : string) : bool := includes customFieldV2ToolNames name.

Definition isWorkflowTool (name : string) : bool := name =? "ghl_get_workflows".

Definition surveyToolNames : list string :=
  [ "ghl_get_surveys"; "ghl_get_survey_submissions" ].

Definition isSurveyTool (name : string) : bool := includes surveyToolNames name.

Definition storeToolNames : list string :=
  [ "ghl_create_shipping_zone"; "ghl_list_shipping_zones";
    "ghl_get_shipping_zone"; "ghl_update_shipping_zone";
    "ghl_delete_shipping_zone"; "ghl_get_available_shipping_rates";
    "ghl_create_shipping_rate"; "ghl_list_shipping_rates";
    "ghl_get_shipping_rate"; "ghl_update_shipping_rate";
    "ghl_delete_shipping_rate"; "ghl_create_shipping_carrier";
    "ghl_list_shipping_carriers"; "ghl_get_shipping_carrier";
    "ghl_update_shipping_carrier"; "ghl_delete_shipping_carrier";
    "ghl_create_store_setting"; "ghl_get_store_setting" ].

Definition isStoreTool (name : string) : bool := includes storeToolNames name.

Definition productsToolNames : list string :=
  [ "ghl_create_product"; "ghl_list_products"; "ghl_get_product";
    "ghl_update_product"; "ghl_delete_product"; "ghl_create_price";
    "ghl_list_prices"; "ghl_list_inventory";
    "ghl_create_product_collection"; "ghl_list_product_collections" ].

Definition isProductsTool (name : string) : bool := includes productsToolNames name.

Definition paymentsToolNames : list string :=
  [ "create_whitelabel_integration_provider";
    "list_whitelabel_integration_providers"; "list_orders";
    "get_order_by_id"; "create_order_fulfillment";
    "list_order_fulfillments"; "list_transactions"; "get_transaction_by_id";
    "list_subscriptions"; "get_subscription_by_id"; "list_coupons";
    "create_coupon"; "update_coupon"; "delete_coupon"; "get_coupon";
    "create_custom_provider_integration";
    "delete_custom_provider_integration"; "get_custom_provider_config";
    "create_custom_provider_config"; "disconnect_custom_provider_config" ].

Definition isPaymentsTool (name : string) : bool := includes paymentsToolNames name.

Definition invoicesToolNames : list string :=
  [ "create_invoice_template"; "list_invoice_templates";
    "get_invoice_template"; "update_invoice_template";
    "delete_invoice_template"; "update_invoice_template_late_fees";
    "update_invoice_template_payment_methods"; "create_invoice_schedule";
    "list_invoice_schedules"; "get_invoice_schedule";
    "update_invoice_schedule"; "delete_invoice_schedule";
    "schedule_invoice_schedule"; "auto_payment_invoice_schedule";
    "cancel_invoice_schedule"; "create_invoice"; "list_invoices";
    "get_invoice"; "update_invoice"; "delete_invoice"; "void_invoice";
    "send_invoice"; "record_invoice_payment"; "generate_invoice_number";
    "text2pay_invoice"; "update_invoice_last_visited"; "create_estimate";
    "list_estimates"; "update_estimate"; "delete_estimate"; "send_estimate";
    "create_invoice_from_estimate"; "generate_estimate_number";
    "update_estimate_last_visited"; "list_estimate_templates";
    "create_estimate_template"; "update_estimate_template";
    "delete_estimate_template"; "preview_estimate_template" ].

Definition isInvoicesTool (name : string) : bool := includes invoicesToolNames name.

(** [initializeGHLClient]: one test for both variables. The result stands
    for the client built from the configuration. *)
Definition initializeGHLClient (env : Env) : Thrown + GHLConfig :=
  let config :=
    {| accessToken := envOr (env "GHL_API_KEY") "";
       baseUrl := envOr (env "GHL_BASE_URL")
                    "https://services.leadconnectorhq.com";
       version := "2021-07-28";
       locationId := envOr (env "GHL_LOCATION_ID") "" |} in
  if (accessToken config =? "") || (locationId config =? "") then
    inl (newError
           "GHL_API_KEY and GHL_LOCATION_ID environment variables are required")
  else inr config.

Section Server.

(** What the tool classes publish and how they answer: the classes live in
    [src/tools/], outside this development. *)
Variable defs : Group -> list ToolDefinition.
Variable behaviour : Behaviour.

Definition getAllTools : list ToolDefinition := concatGroups defs.

(** The [ListToolsRequestSchema] handler. *)
Definition listToolsHandler : list ToolDefinition := getAllTools.

(** The if/else chain of the [CallToolRequestSchema] handler. *)
Definition routeCall (nm : string) (args : option (list (string * JSON)))
  : Async Thrown JSON :=
  if isContactTool nm then execute behaviour ContactTools nm (orEmpty args)
  else if isConversationTool nm then execute behaviour ConversationTools nm (orEmpty args)
  else if isBlogTool nm then execute behaviour BlogTools nm (orEmpty args)
  else if isOpportunityTool nm then execute behaviour OpportunityTools nm (orEmpty args)
  else if isCalendarTool nm then execute behaviour CalendarTools nm (orEmpty args)
  else if isEmailTool nm then execute behaviour EmailTools nm (orEmpty args)
  else if isLocationTool nm then execute behaviour LocationTools nm (orEmpty args)
  else if isEmailISVTool nm then execute behaviour EmailISVTools nm (orEmpty args)
  else if isSocialMediaTool nm then execute behaviour SocialMediaTools nm (orEmpty args)
  else if isMediaTool nm then execute behaviour MediaTools nm (orEmpty args)
  else if isObjectTool nm then execute behaviour ObjectTools nm (orEmpty args)
  else if isAssociationTool nm then execute behaviour AssociationTools nm (orEmpty args)
  else if isCustomFieldV2Tool nm then execute behaviour CustomFieldV2Tools nm (orEmpty args)
  else if isWorkflowTool nm then execute behaviour WorkflowTools nm (orEmpty args)
  else if isSurveyTool nm then execute behaviour SurveyTools nm (orEmpty args)
  else if isStoreTool nm then execute behaviour StoreTools nm (orEmpty args)
  else if isProductsTool nm then execute behaviour ProductsTools nm (orEmpty args)
  else if isPaymentsTool nm then execute behaviour PaymentsTools nm (orEmpty args)
  else if isInvoicesTool nm then execute behaviour InvoicesTools nm (orEmpty args)
  else throw (newError ("Unknown tool: " ++ nm)).

(** The [CallToolRequestSchema] handler: no [try] around the chain. *)
Definition callToolHandler (nm : string)
  (args : option (list (string * JSON))) : Async Thrown CallToolResult :=
  result <- routeCall nm args ;;
  ret {| content := [ {| type := "text"; text := JSON_stringify result |} ] |}.

End Server.

(** The group whose branch of the chain a name takes. *)
Definition owner (nm : string) : option Group :=
  if isContactTool nm then Some ContactTools
  else if isConversationTool nm then Some ConversationTools
  else if isBlogTool nm then Some BlogTools
  else if isOpportunityTool nm then Some OpportunityTools
  else if isCalendarTool nm then Some CalendarTools
  else if isEmailTool nm then Some EmailTools
  else if isLocationTool nm then Some LocationTools
  else if isEmailISVTool nm then Some EmailISVTools
  else if isSocialMediaTool nm then Some SocialMediaTools
  else if isMediaTool nm then Some MediaTools
  else if isObjectTool nm then Some ObjectTools
  else if isAssociationTool nm then Some AssociationTools
  else if isCustomFieldV2Tool nm then Some CustomFieldV2Tools
  else if isWorkflowTool nm then Some WorkflowTools
  else if isSurveyTool nm then Some SurveyTools
  else if isStoreTool nm then Some StoreTools
  else if isProductsTool nm then Some ProductsTools
  else if isPaymentsTool nm then Some PaymentsTools
  else if isInvoicesTool nm then Some InvoicesTools
  else None.

(** The membership test of a group. *)
Definition owns (g : Group) (nm : string) : bool :=
  match g with
  | ContactTools => isContactTool nm
  | ConversationTools => isConversationTool nm
  | BlogTools => isBlogTool nm
  | OpportunityTools => isOpportunityTool nm
  | CalendarTools => isCalendarTool nm
  | EmailTools => isEmailTool nm
  | LocationTools => isLocationTool nm
  | EmailISVTools => isEmailISVTool nm
  | SocialMediaTools => isSocialMediaTool nm
  | MediaTools => isMediaTool nm
  | ObjectTools => isObjectTool nm
  | AssociationTools => isAssociationTool nm
  | CustomFieldV2Tools => isCustomFieldV2Tool nm
  | WorkflowTools => isWorkflowTool nm
  | SurveyTools => isSurveyTool nm
  | StoreTools => isStoreTool nm
  | ProductsTools => isProductsTool nm
  | PaymentsTools => isPaymentsTool nm
  | InvoicesTools => isInvoicesTool nm
  end.

(** The names the membership test of a group accepts. *)
Definition names (g : Group) : list string :=
  match g with
  | ContactTools => contactToolNames
  | ConversationTools => conversationToolNames
  | BlogTools => blogToolNames
  | OpportunityTools => opportunityToolNames
  | CalendarTools => calendarToolNames
  | EmailTools => emailToolNames
  | LocationTools => locationToolNames
  | EmailISVTools => [ "verify_email" ]
  | SocialMediaTools => socialMediaToolNames
  | MediaTools => mediaToolNames
  | ObjectTools => objectToolNames
  | AssociationTools => associationToolNames
  | CustomFieldV2Tools => customFieldV2ToolNames
  | WorkflowTools => [ "ghl_get_workflows" ]
  | SurveyTools => surveyToolNames
  | StoreTools => storeToolNames
  | ProductsTools => productsToolNames
  | PaymentsTools => paymentsToolNames
  | InvoicesTools => invoicesToolNames
  end.

End Stdio.

(* ================================================================== *)
(** * [src/http-server.ts]: the HTTP server *)
(* ================================================================== *)

Module Http.

(** The tool validation methods of [GHLMCPHttpServer]. *)

Definition contactToolNames : list string :=
  [ "create_contact"; "search_contacts"; "get_contact"; "update_contact";
    "add_contact_tags"; "remove_contact_tags"; "delete_contact";
    "get_contact_tasks"; "create_contact_task"; "get_contact_task";
    "update_contact_task"; "delete_contact_task"; "update_task_completion";
    "get_contact_notes"; "create_contact_note"; "get_contact_note";
    "update_contact_note"; "delete_contact_note"; "upsert_contact";
    "get_duplicate_contact"; "get_contacts_by_business";
    "get_contact_appointments"; "bulk_update_contact_tags";
    "bulk_update_contact_business"; "add_contact_followers";
    "remove_contact_followers"; "add_contact_to_campaign";
    "remove_contact_from_campaign"; "remove_contact_from_all_campaigns";
    "add_contact_to_workflow"; "remove_contact_from_workflow" ].

Definition isContactTool (name : string) : bool := includes contactToolNames name.

Definition conversationToolNames : list string :=
  [ "send_sms"; "send_email"; "search_conversations"; "get_conversation";
    "create_conversation"; "update_conversation"; "delete_conversation";
    "get_recent_messages"; "get_email_message"; "get_message";
    "upload_message_attachments"; "update_message_status";
    "add_inbound_message"; "add_outbound_call"; "get_message_recording";
    "get_message_transcription"; "download_transcription";
    "cancel_scheduled_message"; "cancel_scheduled_email"; "live_chat_typing" ].

Definition isConversationTool (name : string) : bool := includes conversationToolNames name.

Definition blogToolNames : list string :=
  [ "create_blog_post"; "update_blog_post"; "get_blog_posts";
    "get_blog_sites"; "get_blog_authors"; "get_blog_categories";
    "check_url_slug" ].

Definition isBlogTool (name : string) : bool := includes blogToolNames name.

Definition opportunityToolNames : list string :=
  [ "search_opportunities"; "get_pipelines"; "get_opportunity";
    "create_opportunity"; "update_opportunity_status"; "delete_opportunity";
    "update_opportunity"; "upsert_opportunity"; "add_opportunity_followers";
    "remove_opportunity_followers" ].

Definition isOpportunityTool (name : string) : bool := includes opportunityToolNames name.

Definition calendarToolNames : list string :=
  [ "get_calendar_groups"; "get_calendars"; "create_calendar";
    "get_calendar"; "update_calendar"; "delete_calendar";
    "get_calendar_events"; "get_free_slots"; "create_appointment";
    "get_appointment"; "update_appointment"; "delete_appointment";
    "create_block_slot"; "update_block_slot" ].

Definition isCalendarTool (name : string) : bool := includes calendarToolNames name.

Definition emailToolNames : list string :=
  [ "get_email_campaigns"; "create_email_template"; "get_email_templates";
    "update_email_template"; "delete_email_template" ].

Definition isEmailTool (name : string) : bool := includes emailToolNames name.

Definition locationToolNames : list string :=
  [ "search_locations"; "get_location"; "create_location";
    "update_location"; "delete_location"; "get_location_tags";
    "create_location_tag"; "get_location_tag"; "update_location_tag";
    "delete_location_tag"; "search_location_tasks";
    "get_location_custom_fields"; "create_location_custom_field";
    "get_location_custom_field"; "update_location_custom_field";
    "delete_location_custom_field"; "get_location_custom_values";
    "create_location_custom_value"; "get_location_custom_value";
    "update_location_custom_value"; "delete_location_custom_value";
    "get_location_templates"; "delete_location_template"; "get_timezones" ].

Definition isLocationTool (name : string) : bool := includes locationToolNames name.

Definition isEmailISVTool (name : string) : bool := name =? "verify_email".

Definition socialMediaToolNames : list string :=
  [ "search_social_posts"; "create_social_post"; "get_social_post";
    "update_social_post"; "delete_social_post"; "bulk_delete_social_posts";
    "get_social_accounts"; "delete_social_account"; "upload_social_csv";
    "get_csv_upload_status"; "set_csv_accounts"; "get_social_categories";
    "get_social_category"; "get_social_tags"; "get_social_tags_by_ids";
    "start_social_oauth"; "get_platform_accounts" ].

Definition isSocialMediaTool (name : string) : bool := includes socialMediaToolNames name.

Definition mediaToolNames : list string :=
  [ "get_media_files"; "upload_media_file"; "delete_media_file" ].

Definition isMediaTool (name : string) : bool := includes mediaToolNames name.

Definition objectToolNames : list string :=
  [ "get_all_objects"; "create_object_schema"; "get_object_schema";
    "update_object_schema"; "create_object_record"; "get_object_record";
    "update_object_record"; "delete_object_record"; "search_object_records" ].

Definition isObjectTool (name : string) : bool := includes objectToolNames name.

Definition associationToolNames : list string :=
  [ "ghl_get_all_associations"; "ghl_create_association";
    "ghl_get_association_by_id"; "ghl_update_association";
    "ghl_delete_association"; "ghl_get_association_by_key";
    "ghl_get_association_by_object_key"; "ghl_create_relation";
    "ghl_get_relations_by_record"; "ghl_delete_relation" ].

Definition isAssociationTool (name : string) : bool := includes associationToolNames name.

Definition customFieldV2ToolNames : list string :=
  [ "ghl_get_custom_field_by_id"; "ghl_create_custom_field";
    "ghl_update_custom_field"; "ghl_delete_custom_field";
    "ghl_get_custom_fields_by_object_key"; "ghl_create_custom_field_folder";
    "ghl_update_custom_field_folder"; "ghl_delete_custom_field_folder" ].

Definition isCustomFieldV2Tool (name : string) : bool := includes customFieldV2ToolNames name.

Definition isWorkflowTool (name : string) : bool := name =? "ghl_get_workflows".

Definition surveyToolNames : list string :=
  [ "ghl_get_surveys"; "ghl_get_survey_submissions" ].

Definition isSurveyTool (name : string) : bool := includes surveyToolNames name.

Definition storeToolNames : list string :=
  [ "ghl_create_shipping_zone"; "ghl_list_shipping_zones";
    "ghl_get_shipping_zone"; "ghl_update_shipping_zone";
    "ghl_delete_shipping_zone"; "ghl_get_available_shipping_rates";
    "ghl_create_shipping_rate"; "ghl_list_shipping_rates";
    "ghl_get_shipping_rate"; "ghl_update_shipping_rate";
    "ghl_delete_shipping_rate"; "ghl_create_shipping_carrier";
    "ghl_list_shipping_carriers"; "ghl_get_shipping_carrier";
    "ghl_update_shipping_carrier"; "ghl_delete_shipping_carrier";
    "ghl_create_store_setting"; "ghl_get_store_setting" ].

Definition isStoreTool (name : string) : bool := includes storeToolNames name.

Definition productsToolNames : list string :=
  [ "ghl_create_product"; "ghl_list_products"; "ghl_get_product";
    "ghl_update_product"; "ghl_delete_product"; "ghl_create_price";
    "ghl_list_prices"; "ghl_list_inventory";
    "ghl_create_product_collection"; "ghl_list_product_collections" ].

Definition isProductsTool (name : string) : bool := includes productsToolNames name.

Definition paymentsToolNames : list string :=
  [ "create_whitelabel_integration_provider";
    "list_whitelabel_integration_providers"; "list_orders";
    "get_order_by_id"; "create_order_fulfillment";
    "list_order_fulfillments"; "list_transactions"; "get_transaction_by_id";
    "list_subscriptions"; "get_subscription_by_id"; "list_coupons";
    "create_coupon"; "update_coupon"; "delete_coupon"; "get_coupon";
    "create_custom_provider_integration";
    "delete_custom_provider_integration"; "get_custom_provider_config";
    "create_custom_provider_config"; "disconnect_custom_provider_config" ].

Definition isPaymentsTool (name : string) : bool := includes paymentsToolNames name.

Definition invoicesToolNames : list string :=
  [ "create_invoice_template"; "list_invoice_templates";
    "get_invoice_template"; "update_invoice_template";
    "delete_invoice_template"; "update_invoice_template_late_fees";
    "update_invoice_template_payment_methods"; "create_invoice_schedule";
    "list_invoice_schedules"; "get_invoice_schedule";
    "update_invoice_schedule"; "delete_invoice_schedule";
    "schedule_invoice_schedule"; "auto_payment_invoice_schedule";
    "cancel_invoice_schedule"; "create_invoice"; "list_invoices";
    "get_invoice"; "update_invoice"; "delete_invoice"; "void_invoice";
    "send_invoice"; "record_invoice_payment"; "generate_invoice_number";
    "text2pay_invoice"; "update_invoice_last_visited"; "create_estimate";
    "list_estimates"; "update_estimate"; "delete_estimate"; "send_estimate";
    "create_invoice_from_estimate"; "generate_estimate_number";
    "update_estimate_last_visited"; "list_estimate_templates";
    "create_estimate_template"; "update_estimate_template";
    "delete_estimate_template"; "preview_estimate_template" ].

Definition isInvoicesTool (name : string) : bool := includes invoicesToolNames name.

(** The body of [tools.forEach] in [categorizeTools]. *)
Definition categorizeStep (categories : Categories) (tool : ToolDefinition)
  : Categories :=
  let toolName := toLowerCase (name tool) in
  if strIncludes toolName "contact" then
    push "Contact Management" (name tool) categories
  else if strIncludes toolName "message" || strIncludes toolName "sms"
          || strIncludes toolName "email"
          || strIncludes toolName "conversation" then
    push "Messaging & Communication" (name tool) categories
  else if strIncludes toolName "opportunity"
          || strIncludes toolName "pipeline" then
    push "Sales & Opportunities" (name tool) categories
  else if strIncludes toolName "calendar"
          || strIncludes toolName "appointment"
          || strIncludes toolName "event" then
    push "Calendar & Appointments" (name tool) categories
  else if strIncludes toolName "payment" || strIncludes toolName "invoice"
          || strIncludes toolName "billing"
          || strIncludes toolName "transaction" then
    push "Payments & Billing" (name tool) categories
  else if strIncludes toolName "social" || strIncludes toolName "blog"
          || strIncludes toolName "media"
          || strIncludes toolName "campaign" then
    push "Marketing & Social Media" (name tool) categories
  else if strIncludes toolName "location" || strIncludes toolName "workflow"
          || strIncludes toolName "survey"
          || strIncludes toolName "store" then
    push "Business Operations" (name tool) categories
  else if strIncludes toolName "object" || strIncludes toolName "custom"
          || strIncludes toolName "field"
          || strIncludes toolName "association" then
    push "Custom Objects & Data" (name tool) categories
  else
    push "Other" (name tool) categories.

Definition categorizeTools (tools : list ToolDefinition) : list Category :=
  finishCategories (fold_left categorizeStep tools emptyCategories).

(** [getToolCategory], the helper of the [/describe/tool/:toolName] route. *)
Definition getToolCategory (toolName : string) : string :=
  let nm := toLowerCase toolName in
  if strIncludes nm "contact" then "Contact Management"
  else if strIncludes nm "message" || strIncludes nm "sms"
          || strIncludes nm "email" || strIncludes nm "conversation" then
    "Messaging & Communication"
  else if strIncludes nm "opportunity" || strIncludes nm "pipeline" then
    "Sales & Opportunities"
  else if strIncludes nm "calendar" || strIncludes nm "appointment" then
    "Calendar & Appointments"
  else if strIncludes nm "payment" || strIncludes nm "invoice"
          || strIncludes nm "billing" then
    "Payments & Billing"
  else if strIncludes nm "social" || strIncludes nm "blog"
          || strIncludes nm "media" then
    "Marketing & Social Media"
  else if strIncludes nm "location" || strIncludes nm "workflow"
          || strIncludes nm "survey" || strIncludes nm "store" then
    "Business Operations"
  else if strIncludes nm "object" || strIncludes nm "custom"
          || strIncludes nm "field" || strIncludes nm "association" then
    "Custom Objects & Data"
  else "Other".

(** [generateExampleArgs]: a helper no route of the server calls. *)
Definition generateExampleArgs (tool : ToolDefinition)
  : list (string * JSON) :=
  match inputSchema tool with
  | Some schema =>
      match properties schema with
      | Some _ =>
          let required :=
            match required schema with Some r => r | None => [] end in
          fold_left
            (fun args field =>
               if strIncludes field "email" then
                 setProp field (JString "user@example.com") args
               else if strIncludes field "phone" then
                 setProp field (JString "+1234567890") args
               else if strIncludes field "id" then
                 setProp field (JString "example_id_123") args
               else setProp field (JString "example_value") args)
            required []
      | None => []
      end
  | None => []
  end.

(** One element of [examples]. *)
Record Example : Type := {
  exTool : string;
  exArguments : list (string * JSON)
}.

(** The JSON body of a successful [/describe/tool/:toolName] answer. *)
Record ToolDescription : Type := {
  tool : ToolDefinition;
  examples : list Example;
  relatedTools : list string;
  category : string
}.

(** An answer of a route: the status and the body, which is an error text
    ([{ error: ... }]) or a description. *)
Definition Response : Type := nat * (string + ToolDescription).

(** [initializeGHLClient]: the access token is tested first, then the
    location. The result stands for the client built from the
    configuration. *)
Definition initializeGHLClient (env : Env) : Thrown + GHLConfig :=
  let config :=
    {| accessToken := envOr (env "GHL_API_KEY") "";
       baseUrl := envOr (env "GHL_BASE_URL")
                    "https://services.leadconnectorhq.com";
       version := "2021-07-28";
       locationId := envOr (env "GHL_LOCATION_ID") "" |} in
  if accessToken config =? "" then
    inl (newError "GHL_API_KEY environment variable is required")
  else if locationId config =? "" then
    inl (newError "GHL_LOCATION_ID environment variable is required")
  else inr config.

(** One element of [tools] in the [/describe] answer. *)
Record ToolSummary : Type := {
  sumName : string;
  sumDescription : option string;
  sumInputSchema : option InputSchema
}.

(** One element of [categories] in the [/health] and [/] answers. *)
Record CategoryCount : Type := {
  ccName : string;
  ccCount : nat
}.

(** The endpoint table of the [/health] and [/] answers. *)
Definition endpoints : list (string * string) :=
  [ ("describe", "/describe");
    ("describe-tool", "/describe/tool/:toolName");
    ("health", "/health");
    ("capabilities", "/capabilities");
    ("tools", "/tools");
    ("sse", "/sse") ].

(** The body of the [/describe] answer. *)
Record DescribeBody : Type := {
  dbServerInfo : JSON;
  dbToolsCount : nat;
  dbCategories : list Category;
  dbTools : list ToolSummary
}.

(** The body of the [/health] answer. *)
Record HealthBody : Type := {
  hbStatus : string;
  hbServer : string;
  hbVersion : string;
  hbToolsCount : nat;
  hbTimestamp : string;
  hbCategories : list CategoryCount;
  hbEndpoints : list (string * string)
}.

(** The body of the [/capabilities] answer. *)
Record CapabilitiesBody : Type := {
  cbCapabilities : JSON;
  cbServer : JSON;
  cbToolsCount : nat
}.

(** The body of the [/tools] answer. *)
Record ToolsBody : Type := {
  tbTools : list ToolDefinition;
  tbCount : nat;
  tbCategories : list Category;
  tbServerInfo : JSON
}.

(** The body of the [/] answer. *)
Record RootBody : Type := {
  rbName : string;
  rbVersion : string;
  rbStatus : string;
  rbDescription : string;
  rbEndpoints : list (string * string);
  rbToolsCount : nat;
  rbCategories : list CategoryCount;
  rbDocumentation : string
}.

Section Server.

Variable defs : Group -> list ToolDefinition.
Variable behaviour : Behaviour.

Definition getAllTools : list ToolDefinition := concatGroups defs.

(** The if/else chain inside the [try] of the [CallToolRequestSchema]
    handler. *)
Definition routeCall (nm : string) (args : option (list (string * JSON)))
  : Async Thrown JSON :=
  if isContactTool nm then execute behaviour ContactTools nm (orEmpty args)
  else if isConversationTool nm then execute behaviour ConversationTools nm (orEmpty args)
  else if isBlogTool nm then execute behaviour BlogTools nm (orEmpty args)
  else if isOpportunityTool nm then execute behaviour OpportunityTools nm (orEmpty args)
  else if isCalendarTool nm then execute behaviour CalendarTools nm (orEmpty args)
  else if isEmailTool nm then execute behaviour EmailTools nm (orEmpty args)
  else if isLocationTool nm then execute behaviour LocationTools nm (orEmpty args)
  else if isEmailISVTool nm then execute behaviour EmailISVTools nm (orEmpty args)
  else if isSocialMediaTool nm then execute behaviour SocialMediaTools nm (orEmpty args)
  else if isMediaTool nm then execute behaviour MediaTools nm (orEmpty args)
  else if isObjectTool nm then execute behaviour ObjectTools nm (orEmpty args)
  else if isAssociationTool nm then execute behaviour AssociationTools nm (orEmpty args)
  else if isCustomFieldV2Tool nm then execute behaviour CustomFieldV2Tools nm (orEmpty args)
  else if isWorkflowTool nm then execute behaviour WorkflowTools nm (orEmpty args)
  else if isSurveyTool nm then execute behaviour SurveyTools nm (orEmpty args)
  else if isStoreTool nm then execute behaviour StoreTools nm (orEmpty args)
  else if isProductsTool nm then execute behaviour ProductsTools nm (orEmpty args)
  else if isPaymentsTool nm then execute behaviour PaymentsTools nm (orEmpty args)
  else if isInvoicesTool nm then execute behaviour InvoicesTools nm (orEmpty args)
  else throw (newError ("Unknown tool: " ++ nm)).

(** [error instanceof Error && error.message.includes('404')]. *)
Definition is404 (error : Thrown) : bool :=
  match error with
  | ErrorInstance _ message => strIncludes message "404"
  | NonError _ => false
  end.

(** The [catch] block of the handler. *)
Definition translate (error : Thrown) : McpError :=
  let errorCode := if is404 error then InvalidRequest else InternalError in
  {| code := errorCode;
     mcpMessage := "Tool execution failed: " ++ renderThrown error |}.

(** The [CallToolRequestSchema] handler. *)
Definition callToolHandler (nm : string)
  (args : option (list (string * JSON))) : Async McpError CallToolResult :=
  tryCatch
    (result <- routeCall nm args ;;
     ret {| content := [ {| type := "text";
                            text := JSON_stringify result |} ] |})
    (fun error => throw (translate error)).

(** The [_meta] member of the [ListToolsRequestSchema] answer. *)
Record ListMeta : Type := {
  totalCount : nat;
  categories : list Category
}.

(** The [ListToolsRequestSchema] handler. *)
Definition listToolsHandler : list ToolDefinition * ListMeta :=
  let allTools := getAllTools in
  (allTools,
   {| totalCount := length allTools; categories := categorizeTools allTools |}).

(** The [/describe/tool/:toolName] route. *)
Definition describeToolRoute (toolName : string) : Response :=
  let allTools := getAllTools in
  match arrFind (fun t => name t =? toolName) allTools with
  | None => (404, inl ("Tool '" ++ toolName ++ "' not found"))
  | Some t =>
      (200, inr {| tool := t;
                   examples := [ {| exTool := name t; exArguments := [] |} ];
                   relatedTools := [];
                   category := getToolCategory toolName |})
  end.

(** The [/describe] route. With tool classes that do not throw, the [catch]
    of this route and of the four below is never entered. *)
Definition describeRoute : DescribeBody :=
  let allTools := getAllTools in
  let categories := categorizeTools allTools in
  let serverInfo :=
    JObject
      [ ("name", JString "GoHighLevel MCP Server");
        ("version", JString "1.0.0");
        ("capabilities",
         JObject
           [ ("tools", JObject [ ("listChanged", JBool true) ]);
             ("resources", JObject [ ("subscribe", JBool false);
                                     ("listChanged", JBool false) ]);
             ("prompts", JObject [ ("listChanged", JBool false) ]);
             ("experimental",
              JObject
                [ ("ghl",
                   JObject
                     [ ("version", JString "v2021-07-28");
                       ("supportedFeatures",
                        JArray [ JString "contacts"; JString "conversations";
                                 JString "opportunities"; JString "calendars";
                                 JString "invoices"; JString "payments" ]) ]) ]) ]);
        ("instructions",
         JString "GoHighLevel MCP Server provides comprehensive access to GoHighLevel CRM APIs. Use tools to manage contacts, send messages, create opportunities, and more.") ] in
  {| dbServerInfo := serverInfo;
     dbToolsCount := length allTools;
     dbCategories := categories;
     dbTools := map (fun t => {| sumName := name t;
                                 sumDescription := description t;
                                 sumInputSchema := inputSchema t |}) allTools |}.

(** The [/health] route; [now] is [new Date().toISOString()]. *)
Definition healthRoute (now : string) : HealthBody :=
  let allTools := getAllTools in
  let categories := categorizeTools allTools in
  {| hbStatus := "healthy";
     hbServer := "GoHighLevel MCP Server";
     hbVersion := "1.0.0";
     hbToolsCount := length allTools;
     hbTimestamp := now;
     hbCategories := map (fun c => {| ccName := catName c; ccCount := count c |})
                       categories;
     hbEndpoints := endpoints |}.

(** The [/capabilities] route. *)
Definition capabilitiesRoute : CapabilitiesBody :=
  let allTools := getAllTools in
  {| cbCapabilities :=
       JObject
         [ ("tools", JObject [ ("listChanged", JBool true) ]);
           ("resources", JObject [ ("subscribe", JBool false);
                                   ("listChanged", JBool false) ]);
           ("prompts", JObject [ ("listChanged", JBool false) ]) ];
     cbServer := JObject [ ("name", JString "GoHighLevel MCP Server");
                           ("version", JString "1.0.0") ];
     cbToolsCount := length allTools |}.

(** The [/tools] route. *)
Definition toolsRoute : ToolsBody :=
  let allTools := getAllTools in
  let categories := categorizeTools allTools in
  {| tbTools := allTools;
     tbCount := length allTools;
     tbCategories := categories;
     tbServerInfo := JObject [ ("name", JString "GoHighLevel MCP Server");
                               ("version", JString "1.0.0") ] |}.

(** The [/] route. *)
Definition rootRoute : RootBody :=
  let allTools := getAllTools in
  let categories := categorizeTools allTools in
  {| rbName := "GoHighLevel MCP Server";
     rbVersion := "1.0.0";
     rbStatus := "running";
     rbDescription := "GoHighLevel MCP Server with comprehensive CRM API access";
     rbEndpoints := endpoints;
     rbToolsCount := length allTools;
     rbCategories := map (fun c => {| ccName := catName c; ccCount := count c |})
                       categories;
     rbDocumentation := "https://github.com/ken-aus/GoHighLevel-MCP" |}.

End Server.

(** The group whose branch of the chain a name takes. *)
Definition owner (nm : string) : option Group :=
  if isContactTool nm then Some ContactTools
  else if isConversationTool nm then Some ConversationTools
  else if isBlogTool nm then Some BlogTools
  else if isOpportunityTool nm then Some OpportunityTools
  else if isCalendarTool nm then Some CalendarTools
  else if isEmailTool nm then Some EmailTools
  else if isLocationTool nm then Some LocationTools
  else if isEmailISVTool nm then Some EmailISVTools
  else if isSocialMediaTool nm then Some SocialMediaTools
  else if isMediaTool nm then Some MediaTools
  else if isObjectTool nm then Some ObjectTools
  else if isAssociationTool nm then Some AssociationTools
  else if isCustomFieldV2Tool nm then Some CustomFieldV2Tools
  else if isWorkflowTool nm then Some WorkflowTools
  else if isSurveyTool nm then Some SurveyTools
  else if isStoreTool nm then Some StoreTools
  else if isProductsTool nm then Some ProductsTools
  else if isPaymentsTool nm then Some PaymentsTools
  else if isInvoicesTool nm then Some InvoicesTools
  else None.

(** The membership test of a group. *)
Definition owns (g : Group) (nm : string) : bool :=
  match g with
  | ContactTools => isContactTool nm
  | ConversationTools => isConversationTool nm
  | BlogTools => isBlogTool nm
  | OpportunityTools => isOpportunityTool nm
  | CalendarTools => isCalendarTool nm
  | EmailTools => isEmailTool nm
  | LocationTools => isLocationTool nm
  | EmailISVTools => isEmailISVTool nm
  | SocialMediaTools => isSocialMediaTool nm
  | MediaTools => isMediaTool nm
  | ObjectTools => isObjectTool nm
  | AssociationTools => isAssociationTool nm
  | CustomFieldV2Tools => isCustomFieldV2Tool nm
  | WorkflowTools => isWorkflowTool nm
  | SurveyTools => isSurveyTool nm
  | StoreTools => isStoreTool nm
  | ProductsTools => isProductsTool nm
  | PaymentsTools => isPaymentsTool nm
  | InvoicesTools => isInvoicesTool nm
  end.

(** The names the membership test of a group accepts. *)
Definition names (g : Group) : list string :=
  match g with
  | ContactTools => contactToolNames
  | ConversationTools => conversationToolNames
  | BlogTools => blogToolNames
  | OpportunityTools => opportunityToolNames
  | CalendarTools => calendarToolNames
  | EmailTools => emailToolNames
  | LocationTools => locationToolNames
  | EmailISVTools => [ "verify_email" ]
  | SocialMediaTools => socialMediaToolNames
  | MediaTools => mediaToolNames
  | ObjectTools => objectToolNames
  | AssociationTools => associationToolNames
  | CustomFieldV2Tools => customFieldV2ToolNames
  | WorkflowTools => [ "ghl_get_workflows" ]
  | SurveyTools => surveyToolNames
  | StoreTools => storeToolNames
  | ProductsTools => productsToolNames
  | PaymentsTools => paymentsToolNames
  | InvoicesTools => invoicesToolNames
  end.

End Http.

(* ================================================================== *)
(** * [src/handlers/describe.ts]: the describe handler *)
(* ================================================================== *)

Module Describe.

(** The body of [tools.forEach] in [categorizeTools]. *)
Definition categorizeStep (categories : Categories) (tool : ToolDefinition)
  : Categories :=
  let toolName := toLowerCase (name tool) in
  if strIncludes toolName "contact" then
    push "Contact Management" (name tool) categories
  else if strIncludes toolName "message" || strIncludes toolName "sms"
          || strIncludes toolName "email"
          || strIncludes toolName "conversation" then
    push "Messaging & Communication" (name tool) categories
  else if strIncludes toolName "opportunity"
          || strIncludes toolName "pipeline" then
    push "Sales & Opportunities" (name tool) categories
  else if strIncludes toolName "calendar"
          || strIncludes toolName "appointment"
          || strIncludes toolName "event" then
    push "Calendar & Appointments" (name tool) categories
  else if strIncludes toolName "payment" || strIncludes toolName "invoice"
          || strIncludes toolName "billing"
          || strIncludes toolName "transaction" then
    push "Payments & Billing" (name tool) categories
  else if strIncludes toolName "social" || strIncludes toolName "blog"
          || strIncludes toolName "media"
          || strIncludes toolName "campaign" then
    push "Marketing & Social Media" (name tool) categories
  else if strIncludes toolName "location" || strIncludes toolName "workflow"
          || strIncludes toolName "survey"
          || strIncludes toolName "store" then
    push "Business Operations" (name tool) categories
  else if strIncludes toolName "object" || strIncludes toolName "custom"
          || strIncludes toolName "field"
          || strIncludes toolName "association" then
    push "Custom Objects & Data" (name tool) categories
  else
    push "Other" (name tool) categories.

Definition categorizeTools (tools : list ToolDefinition) : list Category :=
  finishCategories (fold_left categorizeStep tools emptyCategories).

(** The vocabulary of the pattern in [findRelatedTools], in the order of
    its alternatives. *)
Definition entityWords : list string :=
  [ "contact"; "conversation"; "opportunity"; "appointment"; "invoice";
    "payment"; "social"; "workflow"; "object"; "location"; "blog" ].

(** [currentName.match(/(contact|...|blog)/)]: the match at the leftmost
    position where an alternative matches, the first such alternative. *)
Fixpoint entityMatch (s : string) : option string :=
  match find (fun w => prefix w s) entityWords with
  | Some w => Some w
  | None =>
      match s with
      | EmptyString => None
      | String _ s' => entityMatch s'
      end
  end.

(** [findRelatedTools]: the loop pushes, in catalog order, the name of every
    tool that passes the test. *)
Definition findRelatedTools (currentTool : ToolDefinition)
  (allTools : list ToolDefinition) : list string :=
  let currentName := toLowerCase (name currentTool) in
  let related :=
    match entityMatch currentName with
    | Some entity =>
        map name
          (filter (fun t => negb (name t =? name currentTool)
                            && strIncludes (toLowerCase (name t)) entity)
                  allTools)
    | None => []
    end in
  slice0 5 related.

(** The [switch (prop.type)] of [generateToolExamples], for one required
    field whose property [prop] is declared. *)
Definition exampleField (field : string) (prop : JSON)
  (exampleArgs : list (string * JSON)) : list (string * JSON) :=
  match getProp "type" prop with
  | Some (JString ty) =>
      if ty =? "string" then
        if strIncludes field "email" then
          setProp field (JString "user@example.com") exampleArgs
        else if strIncludes field "phone" then
          setProp field (JString "+1234567890") exampleArgs
        else if strIncludes field "id" then
          setProp field (JString "example_id_123") exampleArgs
        else setProp field (JString "example_value") exampleArgs
      else if ty =? "number" then
        setProp field
          (if strIncludes field "amount" then JNumber "100" else JNumber "1")
          exampleArgs
      else if ty =? "boolean" then setProp field (JBool true) exampleArgs
      else if ty =? "object" then setProp field (JObject []) exampleArgs
      else if ty =? "array" then setProp field (JArray []) exampleArgs
      else exampleArgs
  | _ => exampleArgs
  end.

(** One element of [examples]. *)
Record Example : Type := {
  exTool : string;
  exArguments : list (string * JSON)
}.

Definition generateToolExamples (tool : ToolDefinition) : list Example :=
  match inputSchema tool with
  | Some schema =>
      match properties schema with
      | Some props =>
          let requiredFields :=
            match required schema with Some r => r | None => [] end in
          let exampleArgs :=
            fold_left
              (fun args field =>
                 match assoc field props with
                 | Some prop =>
                     if truthy prop then exampleField field prop args
                     else args
                 | None => args
                 end)
              requiredFields [] in
          [ {| exTool := name tool; exArguments := exampleArgs |} ]
      | None => []
      end
  | None => []
  end.

(** What [getToolDescription] resolves to. *)
Record ToolDescription : Type := {
  tool : ToolDefinition;
  examples : list Example;
  relatedTools : list string;
  category : string
}.

(** [ServerInfo]; the capabilities are kept as the JSON they are sent as. *)
Record ServerInfo : Type := {
  siName : string;
  siVersion : string;
  siCapabilities : option JSON;
  siInstructions : option string
}.

(** What [getServerDescription] resolves to. *)
Record ServerDescription : Type := {
  sdServerInfo : ServerInfo;
  sdCapabilities : JSON;
  sdTools : list ToolDefinition;
  sdToolsCount : nat;
  sdCategories : list Category
}.

Section Handler.

(** [this.tools], as [setTools] left it. *)
Variable thisTools : list ToolDefinition.

(** [getToolDescription]: resolves to a description or rejects with an
    error. *)
Definition getToolDescription (toolName : string)
  : Thrown + ToolDescription :=
  match arrFind (fun t => name t =? toolName) thisTools with
  | None => inl (newError ("Tool '" ++ toolName ++ "' not found"))
  | Some t =>
      let categories := categorizeTools [t] in
      inr {| tool := t;
             examples := generateToolExamples t;
             relatedTools := findRelatedTools t thisTools;
             category := match categories with
                         | c :: _ => catName c
                         | [] => "Other"
                         end |}
  end.

(** [this.serverInfo], as the constructor received it. *)
Variable thisServerInfo : ServerInfo.

(** [getServerDescription]. *)
Definition getServerDescription : ServerDescription :=
  let categories := categorizeTools thisTools in
  let capabilities :=
    JObject
      [ ("tools", JObject [ ("listChanged", JBool true) ]);
        ("resources", JObject [ ("subscribe", JBool false);
                                ("listChanged", JBool false) ]);
        ("prompts", JObject [ ("listChanged", JBool false) ]);
        ("logging", JObject []);
        ("experimental",
         JObject
           [ ("ghl",
              JObject
                [ ("version", JString "v2021-07-28");
                  ("apiVersion", JString "2021-07-28");
                  ("supportedFeatures",
                   JArray [ JString "contacts"; JString "conversations";
                            JString "opportunities"; JString "calendars";
                            JString "invoices"; JString "payments";
                            JString "social_media"; JString "workflows";
                            JString "custom_objects" ]) ]) ]) ] in
  {| sdServerInfo :=
       {| siName := siName thisServerInfo;
          siVersion := siVersion thisServerInfo;
          siCapabilities := Some capabilities;
          siInstructions :=
            Some ("GoHighLevel MCP Server provides comprehensive access to GoHighLevel CRM APIs."
                  ++ newline ++ "Available categories: "
                  ++ join ", " (map catName categories) ++ "."
                  ++ newline ++ "Total tools: "
                  ++ numberToString (length thisTools) ++ "."
                  ++ newline
                  ++ "Use tools to manage contacts, send messages, create opportunities, schedule appointments, process payments, and more.") |};
     sdCapabilities := capabilities;
     sdTools := map (fun t => {| name := name t;
                                 description := description t;
                                 inputSchema := inputSchema t;
                                 annotations := annotations t |}) thisTools;
     sdToolsCount := length thisTools;
     sdCategories := categories |}.

End Handler.

End Describe.

(* ================================================================== *)
(** * The classifier as the specification words it *)
(* ================================================================== *)

(** The priority table of the specification: the labels from the highest
    priority to the lowest, each with its cue substrings. *)
Definition priorityRules : list (string * list string) :=
  [ ("Contact Management", [ "contact" ]);
    ("Messaging & Communication", [ "message"; "sms"; "email"; "conversation" ]);
    ("Sales & Opportunities", [ "opportunity"; "pipeline" ]);
    ("Calendar & Appointments", [ "calendar"; "appointment"; "event" ]);
    ("Payments & Billing", [ "payment"; "invoice"; "billing"; "transaction" ]);
    ("Marketing & Social Media", [ "social"; "blog"; "media"; "campaign" ]);
    ("Business Operations", [ "location"; "workflow"; "survey"; "store" ]);
    ("Custom Objects & Data", [ "object"; "custom"; "field"; "association" ]) ].

(** The first label, in priority order, one of whose cues the lower-cased
    name contains; ["Other"] when there is none. *)
Fixpoint firstMatch (rules : list (string * list string)) (lowered : string)
  : string :=
  match rules with
  | [] => "Other"
  | (label, cues) :: rest =>
      if existsb (strIncludes lowered) cues then label
      else firstMatch rest lowered
  end.

Definition classifySpec (toolName : string) : string :=
  firstMatch priorityRules (toLowerCase toolName).

(** The labels of the nine buckets. *)
Definition labels : list string := map fst emptyCategories.

(** The names of the tools a label receives, in catalog order. *)
Definition bucket (label : string) (ts : list ToolDefinition) : list string :=
  map name (filter (fun t => classifySpec (name t) =? label) ts).

(* ================================================================== *)
(** * Vocabulary of the statements *)
(* ================================================================== *)

(** The log entry of one call. *)
Definition mkCall (g : Group) (nm : string) (args : JSON) : Call :=
  {| callee := g; calleeName := nm; calleeArgs := args |}.

(** The envelope around a payload. *)
Definition envelope (payload : JSON) : CallToolResult :=
  {| content := [ {| type := "text"; text := JSON_stringify payload |} ] |}.

(** One member of a serialized object, at indentation [inner]. *)
Definition member (inner : string) (kv : string * JSON) : string :=
  quoteJSONString (fst kv) ++ ": " ++ serialize inner (snd kv).

(** The strings of a list, one after the other. *)
Definition flatten (parts : list string) : string :=
  fold_right append "" parts.

(** The order [arrSort] sorts by. *)
Definition lexLe (a b : string) : Prop := String.leb a b = true.

(** [push] seen entry by entry. *)
Definition addTo (label x : string) (entry : string * list string)
  : string * list string :=
  (fst entry, if fst entry =? label then (snd entry ++ [x])%list else snd entry).

(** The category a label yields for a catalog. *)
Definition categoryOf (ts : list ToolDefinition) (label : string) : Category :=
  {| catName := label;
     count := length (bucket label ts);
     tools := arrSort (bucket label ts) |}.

Definition nonEmpty (ts : list ToolDefinition) (label : string) : bool :=
  Nat.ltb 0 (length (bucket label ts)).

(** How many definitions of a list carry the name [x]. *)
Definition nameCount (x : string) (ts : list ToolDefinition) : nat :=
  count_occ string_dec (map name ts) x.

(** The definition a describe answer carries, if it is a success. *)
Definition describedByRoute (r : Http.Response) : option ToolDefinition :=
  match r with
  | (_, inr d) => Some (Http.tool d)
  | (_, inl _) => None
  end.

Definition describedByHandler (r : Thrown + Describe.ToolDescription)
  : option ToolDefinition :=
  match r with
  | inr d => Some (Describe.tool d)
  | inl _ => None
  end.

(** The literal the string heuristic picks for a field name. *)
Definition placeholder (field : string) : string :=
  if strIncludes field "email" then "user@example.com"
  else if strIncludes field "phone" then "+1234567890"
  else if strIncludes field "id" then "example_id_123"
  else "example_value".

(** The literal a declared property receives, by its [type]; [None] when
    the field is left out of the example. *)
Definition exampleValue (field : string) (prop : JSON) : option JSON :=
  match getProp "type" prop with
  | Some (JString ty) =>
      if ty =? "string" then Some (JString (placeholder field))
      else if ty =? "number" then
        Some (JNumber (if strIncludes field "amount" then "100" else "1"))
      else if ty =? "boolean" then Some (JBool true)
      else if ty =? "object" then Some (JObject [])
      else if ty =? "array" then Some (JArray [])
      else None
  | _ => None
  end.

(** The literal of a required field, given the declared properties; the
    assignment to [__proto__] leaves no key. *)
Definition valueFor (props : list (string * JSON)) (field : string)
  : option JSON :=
  if field =? "__proto__" then None
  else match assoc field props with
       | Some prop => if truthy prop then exampleValue field prop else None
       | None => None
       end.

(** The literal [Http.generateExampleArgs] leaves under a required field. *)
Definition httpValue (field : string) : option JSON :=
  if field =? "__proto__" then None
  else Some (JString (placeholder field)).

(** The keys of an object in enumeration order: array indices first, in
    ascending order, then the other keys. *)
Inductive EnumOrder : list string -> Prop :=
| EnumStrings (l : list string) :
    Forall (fun k => arrayIndex k = None) l -> EnumOrder l
| EnumIndex (k : string) (i : N) (l : list string) :
    arrayIndex k = Some i ->
    (forall k' j, In k' l -> arrayIndex k' = Some j -> (i <= j)%N) ->
    EnumOrder l -> EnumOrder (k :: l).

Definition requiredOf (schema : InputSchema) : list string :=
  match required schema with
  | Some r => r
  | None => []
  end.

(** No string occurs twice in the list. *)
Fixpoint allDistinct (l : list string) : bool :=
  match l with
  | [] => true
  | x :: l' => negb (includes l' x) && allDistinct l'
  end.

(** Every name a membership test accepts, group after group. *)
Definition routableNames : list string := concat (map Http.names allGroups).

(** Some tool of the catalog is classified under the label. *)
Definition labelUsed (ts : list ToolDefinition) (label : string) : bool :=
  existsb (fun t => classifySpec (name t) =? label) ts.

(** The other tools of the catalog whose lower-cased name contains the
    entity word, by name, in catalog order. *)
Definition othersWith (entity : string) (t : ToolDefinition)
  (catalog : list ToolDefinition) : list string :=
  map name
    (filter (fun t' => negb (name t' =? name t)
                       && strIncludes (toLowerCase (name t')) entity)
            catalog).

(** The body of the loop of [Http.generateExampleArgs], with the literal
    named. *)
Definition httpStep (args : list (string * JSON)) (field : string)
  : list (string * JSON) :=
  setProp field (JString (placeholder field)) args.

(* ================================================================== *)
(** * Sample groups, catalogs and payloads *)
(* ================================================================== *)

(** A backend that answers [null] to every call. *)
Definition alwaysNull : Behaviour := fun _ _ _ _ => inr JNull.

(** A backend that answers every call with the same payload. *)
Definition answers (payload : JSON) : Behaviour := fun _ _ _ _ => inr payload.

(** A backend whose every call fails with a 404 of the REST API. *)
Definition backend404 : Behaviour :=
  fun _ _ _ _ => inl (newError "Request failed with status code 404").

Definition samplePayload : JSON :=
  JObject [ ("id", JString "c1"); ("tags", JArray [ JString "a"; JNumber "2" ]) ].

(** Tool classes that publish nothing. *)
Definition noTools : Group -> list ToolDefinition := fun _ => [].

Definition plainTool (nm descr : string) : ToolDefinition :=
  {| name := nm; description := Some descr;
     inputSchema := Some {| properties := Some []; required := None |};
     annotations := None |}.

(** The contact class publishes a tool that no membership test lists. *)
Definition pingDefs : Group -> list ToolDefinition :=
  fun g => match g with
           | ContactTools => [ plainTool "ping" "Answers pong" ]
           | _ => []
           end.

(** Two classes publish a tool under the same name. *)
Definition dupDefs : Group -> list ToolDefinition :=
  fun g => match g with
           | ContactTools => [ plainTool "x" "first" ]
           | ConversationTools => [ plainTool "x" "second" ]
           | _ => []
           end.

(** A tool with a required number and a required string. *)
Definition searchTool : ToolDefinition :=
  {| name := "search_contacts";
     description := Some "Search contacts";
     inputSchema :=
       Some {| properties :=
                 Some [ ("limit", JObject [ ("type", JString "number") ]);
                        ("email", JObject [ ("type", JString "string") ]) ];
               required := Some [ "limit"; "email" ] |};
     annotations := None |}.

Definition searchDefs : Group -> list ToolDefinition :=
  fun g => match g with
           | ContactTools => [ searchTool ]
           | _ => []
           end.

(** The same two members in two orders. *)
Definition payloadAB : JSON :=
  JObject [ ("a", JNumber "1"); ("b", JNumber "2") ].

Definition payloadBA : JSON :=
  JObject [ ("b", JNumber "2"); ("a", JNumber "1") ].

(** A tool whose required fields include array indices, [__proto__] and a
    repetition. *)
Definition oddKeysTool : ToolDefinition :=
  {| name := "odd_keys";
     description := None;
     inputSchema :=
       Some {| properties := Some [];
               required := Some [ "name"; "__proto__"; "10"; "2"; "name" ] |};
     annotations := None |}.

(** A tool whose required fields are all declared strings. *)
Definition emailTool : ToolDefinition :=
  {| name := "verify_email";
     description := Some "Verify an email address";
     inputSchema :=
       Some {| properties :=
                 Some [ ("email", JObject [ ("type", JString "string") ]);
                        ("contactId", JObject [ ("type", JString "string") ]) ];
               required := Some [ "email"; "contactId"; "email" ] |};
     annotations := None |}.

(** An environment with both required variables and nothing else. *)
Definition sampleEnv : Env :=
  fun k => if k =? "GHL_API_KEY" then Some "key-1"
           else if k =? "GHL_LOCATION_ID" then Some "loc-1"
           else None.

(* ================================================================== *)
(** * Properties of the dispatch chain *)
(* ================================================================== *)

(** Walks an if/else chain on opaque tests, branch by branch. *)
Ltac chain :=
  repeat match goal with
         | |- context [if ?b then _ else _] => destruct b; try reflexivity
         end.

Lemma In_allGroups g : In g allGroups.
Proof. destruct g; simpl; tauto. Qed.

Lemma Group_eqb_eq g h : Group_eqb g h = true -> g = h.
Proof. destruct g, h; simpl; intro H; try reflexivity; discriminate H. Qed.

Lemma includes_In arr x : includes arr x = true <-> In x arr.
Proof.
  unfold includes. rewrite existsb_exists. split.
  - intros [y [Hy Heq]]. apply String.eqb_eq in Heq. now subst.
  - intro H. exists x. split; [assumption | apply String.eqb_refl].
Qed.

Lemma app_one_neq {A : Type} (l : list A) (x : A) : (l ++ [x])%list <> l.
Proof.
  intro H. apply (f_equal (@List.length A)) in H.
  rewrite length_app in H. simpl in H. lia.
Qed.

(** ** The two chains are the same chain *)

Lemma owner_same nm : Stdio.owner nm = Http.owner nm.
Proof. reflexivity. Qed.

Lemma owns_same g nm : Stdio.owns g nm = Http.owns g nm.
Proof. destruct g; reflexivity. Qed.

Lemma route_same b nm args : Stdio.routeCall b nm args = Http.routeCall b nm args.
Proof. reflexivity. Qed.

(** ** Ownership: the membership lists are pairwise disjoint *)

Lemma Http_owns_names g nm : Http.owns g nm = includes (Http.names g) nm.
Proof.
  destruct g; try reflexivity; simpl;
    rewrite orb_false_r; apply String.eqb_sym.
Qed.

Lemma Http_owner_find nm :
  Http.owner nm = find (fun g => Http.owns g nm) allGroups.
Proof. reflexivity. Qed.

Lemma Http_disjoint_check :
  forallb (fun g =>
    forallb (fun n =>
      forallb (fun g' => implb (Http.owns g' n) (Group_eqb g g')) allGroups)
      (Http.names g)) allGroups = true.
Proof. vm_compute. reflexivity. Qed.

Lemma Http_owns_unique g g' nm :
  Http.owns g nm = true -> Http.owns g' nm = true -> g = g'.
Proof.
  intros Hg Hg'.
  pose proof Http_disjoint_check as H.
  rewrite forallb_forall in H. specialize (H g (In_allGroups g)).
  rewrite forallb_forall in H.
  rewrite Http_owns_names in Hg. apply includes_In in Hg.
  specialize (H nm Hg). rewrite forallb_forall in H.
  specialize (H g' (In_allGroups g')). rewrite Hg' in H. simpl in H.
  now apply Group_eqb_eq.
Qed.

Lemma Http_owner_owns nm g :
  Http.owner nm = Some g <-> Http.owns g nm = true.
Proof.
  rewrite Http_owner_find. split.
  - intro H. apply find_some in H. tauto.
  - intro H.
    destruct (find (fun g0 => Http.owns g0 nm) allGroups) as [g'|] eqn:E.
    + apply find_some in E. destruct E as [_ E].
      f_equal. eapply Http_owns_unique; eassumption.
    + eapply find_none in E; [| apply (In_allGroups g)].
      simpl in E. congruence.
Qed.

Lemma Http_owner_none nm :
  Http.owner nm = None <-> forall g, Http.owns g nm = false.
Proof.
  rewrite Http_owner_find. split.
  - intros H g. eapply find_none in H; [exact H | apply In_allGroups].
  - intro H.
    destruct (find (fun g0 => Http.owns g0 nm) allGroups) as [g'|] eqn:E;
      [| reflexivity].
    apply find_some in E. destruct E as [_ E]. rewrite H in E. discriminate.
Qed.

(** ** The members of a serialized object *)

Lemma string_app_nil_r (s : string) : s ++ "" = s.
Proof. induction s as [| c s IH]; simpl; [reflexivity | now rewrite IH]. Qed.

Lemma string_app_assoc (s t u : string) : (s ++ t) ++ u = s ++ t ++ u.
Proof. induction s as [| c s IH]; simpl; [reflexivity | now rewrite IH]. Qed.

Lemma join_cons (sep x : string) (rest : list string) :
  join sep (x :: rest) = x ++ flatten (map (fun y => sep ++ y) rest).
Proof.
  revert x. induction rest as [| y rest IH]; intro x.
  - simpl. now rewrite string_app_nil_r.
  - change (join sep (x :: y :: rest)) with (x ++ sep ++ join sep (y :: rest)).
    rewrite IH. simpl. now rewrite string_app_assoc.
Qed.

Lemma join_split (sep x : string) (before after : list string) :
  join sep (before ++ x :: after)
  = flatten (map (fun y => y ++ sep) before)
    ++ x ++ flatten (map (fun y => sep ++ y) after).
Proof.
  induction before as [| a before IH].
  - apply join_cons.
  - assert (E : join sep ((a :: before) ++ x :: after)
                = a ++ sep ++ join sep (before ++ x :: after)).
    { destruct before; reflexivity. }
    rewrite E, IH. simpl. now rewrite !string_app_assoc.
Qed.

Lemma serialize_members (before after : list (string * JSON))
  (p : string * JSON) :
  JSON_stringify (JObject (before ++ p :: after))
  = "{" ++ newline ++ gap
    ++ flatten (map (fun q => member gap q ++ "," ++ newline ++ gap) before)
    ++ member gap p
    ++ flatten (map (fun q => "," ++ newline ++ gap ++ member gap q) after)
    ++ newline ++ "}".
Proof.
  unfold JSON_stringify. cbn [serialize].
  rewrite (map_ext _ (member gap)) by (intros [k x]; reflexivity).
  assert (N : (before ++ p :: after)%list <> []) by now destruct before.
  destruct (before ++ p :: after)%list as [| q0 rest0] eqn:E; [congruence |].
  rewrite <- E, map_app. cbn [map]. rewrite join_split, !map_map.
  change ("" ++ gap) with gap.
  rewrite !string_app_assoc. reflexivity.
Qed.

(** ** One invocation *)

Section Invocation.

Variable b : Behaviour.
Variable nm : string.
Variable args : option (list (string * JSON)).
Variable log : list Call.

Lemma Stdio_routeCall_owner :
  Stdio.routeCall b nm args =
  match Stdio.owner nm with
  | Some g => execute b g nm (orEmpty args)
  | None => throw (newError ("Unknown tool: " ++ nm))
  end.
Proof. unfold Stdio.routeCall, Stdio.owner. chain. Qed.

Lemma Http_routeCall_owner :
  Http.routeCall b nm args =
  match Http.owner nm with
  | Some g => execute b g nm (orEmpty args)
  | None => throw (newError ("Unknown tool: " ++ nm))
  end.
Proof. unfold Http.routeCall, Http.owner. chain. Qed.

(** The text of the unknown-tool error holds ["404"] only with the name. *)
Lemma unknown_404 :
  strIncludes ("Unknown tool: " ++ nm) "404" = strIncludes nm "404".
Proof. reflexivity. Qed.

(** On the HTTP transport a failure of the owning group comes back as the
    protocol error [translate] builds, after that one call. *)
Lemma Http_failure_translated (g : Group) (e : Thrown) :
  Http.owns g nm = true ->
  b log g nm (orEmpty args) = inl e ->
  Http.callToolHandler b nm args log =
    (inl (Http.translate e), (log ++ [ mkCall g nm (orEmpty args) ])%list).
Proof.
  intros Hg He. apply Http_owner_owns in Hg.
  unfold Http.callToolHandler, tryCatch, bind.
  rewrite Http_routeCall_owner, Hg. unfold execute. rewrite He. reflexivity.
Qed.

(** On the stdio transport the same failure leaves the handler as it was
    thrown. *)
Lemma Stdio_failure_rethrown (g : Group) (e : Thrown) :
  Http.owns g nm = true ->
  b log g nm (orEmpty args) = inl e ->
  Stdio.callToolHandler b nm args log =
    (inl e, (log ++ [ mkCall g nm (orEmpty args) ])%list).
Proof.
  intros Hg He. apply Http_owner_owns in Hg.
  unfold Stdio.callToolHandler, bind.
  rewrite Stdio_routeCall_owner, owner_same, Hg. unfold execute.
  rewrite He. reflexivity.
Qed.

(** Whatever the HTTP handler throws is the translation of a thrown value,
    so its code is one of the two classes. *)
Lemma Http_two_classes (e : McpError) (log' : list Call) :
  Http.callToolHandler b nm args log = (inl e, log') ->
  (exists thrown, e = Http.translate thrown)
  /\ (code e = InvalidRequest \/ code e = InternalError).
Proof.
  unfold Http.callToolHandler, tryCatch, bind, throw, ret.
  destruct (Http.routeCall b nm args log) as [[thrown | payload] l];
    intro H; [| discriminate H].
  injection H as <- _. split; [now exists thrown |].
  unfold Http.translate. simpl. destruct (Http.is404 thrown); auto.
Qed.

(** C1, as the code has it: a name that no membership list holds is
    rejected on both transports with an error whose text names the tool,
    and the call log is left as it was, so no group was called. The HTTP
    handler reports the error with the code [InternalError], or
    [InvalidRequest] when the name itself contains 404; the stdio handler
    throws the plain error. *)
Theorem unknown_name_rejected :
  (forall g, Http.owns g nm = false) ->
  Http.callToolHandler b nm args log =
    (inl {| code := if strIncludes nm "404" then InvalidRequest
                    else InternalError;
            mcpMessage := "Tool execution failed: Error: Unknown tool: " ++ nm |},
     log)
  /\ Stdio.callToolHandler b nm args log =
       (inl (newError ("Unknown tool: " ++ nm)), log).
Proof.
  intro H. apply Http_owner_none in H. split.
  - unfold Http.callToolHandler, tryCatch, bind.
    rewrite Http_routeCall_owner, H. reflexivity.
  - unfold Stdio.callToolHandler, bind.
    rewrite Stdio_routeCall_owner, owner_same, H. reflexivity.
Qed.

(** C8, as the code has it: the owning group is called with [args || {}],
    which is the empty object when the request carries no arguments, and a
    payload it returns comes back on both transports as the one-element
    text envelope whose text is [JSON.stringify(payload, null, 2)]. The
    keys are not put in any order of their own: each member of an object
    payload is written after the members that stand before it in the
    object and before those that stand after it. *)
Theorem success_envelope (g : Group) (payload : JSON) :
  Http.owns g nm = true ->
  b log g nm (orEmpty args) = inr payload ->
  orEmpty None = JObject []
  /\ Http.callToolHandler b nm args log =
       (inr {| content := [ {| type := "text";
                               text := JSON_stringify payload |} ] |},
        (log ++ [ mkCall g nm (orEmpty args) ])%list)
  /\ Stdio.callToolHandler b nm args log =
       (inr {| content := [ {| type := "text";
                               text := JSON_stringify payload |} ] |},
        (log ++ [ mkCall g nm (orEmpty args) ])%list)
  /\ (forall before p after,
        payload = JObject (before ++ p :: after) ->
        JSON_stringify payload =
          "{" ++ newline ++ gap
          ++ flatten (map (fun q => member gap q ++ "," ++ newline ++ gap)
                        before)
          ++ member gap p
          ++ flatten (map (fun q => "," ++ newline ++ gap ++ member gap q)
                        after)
          ++ newline ++ "}").
Proof.
  intros Hg Hb. apply Http_owner_owns in Hg.
  split; [reflexivity | split; [| split]].
  - unfold Http.callToolHandler, tryCatch, bind.
    rewrite Http_routeCall_owner, Hg. unfold execute. rewrite Hb. reflexivity.
  - unfold Stdio.callToolHandler, bind.
    rewrite Stdio_routeCall_owner, owner_same, Hg. unfold execute.
    rewrite Hb. reflexivity.
  - intros before p after ->. apply serialize_members.
Qed.

End Invocation.

(** C3, as the code has it: a name that the membership list of a group
    holds is held by no other group, and dispatching it with no arguments
    makes exactly one call, to that group's execute with the name and the
    empty object, on both transports; the unknown-tool branch, which leaves
    the log unchanged, is not taken. *)
Theorem listed_name_dispatched (b : Behaviour) (nm : string) (g : Group)
  (log : list Call) :
  Http.owns g nm = true ->
  (forall g', Http.owns g' nm = true -> g' = g)
  /\ Stdio.owns g nm = true
  /\ Http.routeCall b nm None log =
       (b log g nm (JObject []), (log ++ [ mkCall g nm (JObject []) ])%list)
  /\ Stdio.routeCall b nm None log =
       (b log g nm (JObject []), (log ++ [ mkCall g nm (JObject []) ])%list)
  /\ Http.routeCall b nm None log
       <> (inl (newError ("Unknown tool: " ++ nm)), log)
  /\ Stdio.routeCall b nm None log
       <> (inl (newError ("Unknown tool: " ++ nm)), log).
Proof.
  intro Hg.
  assert (Ho : Http.owner nm = Some g) by now apply Http_owner_owns.
  assert (R : Http.routeCall b nm None log =
              (b log g nm (JObject []),
               (log ++ [ mkCall g nm (JObject []) ])%list)).
  { rewrite Http_routeCall_owner, Ho. reflexivity. }
  split; [| split; [| split; [| split; [| split]]]].
  - intros g' Hg'. eapply Http_owns_unique; eassumption.
  - rewrite owns_same. exact Hg.
  - exact R.
  - rewrite route_same. exact R.
  - rewrite R. intro H. inversion H as [[H1 H2]]. now apply app_one_neq in H2.
  - rewrite route_same, R. intro H. inversion H as [[H1 H2]].
    now apply app_one_neq in H2.
Qed.

(** C10: the membership lists of the two entry points are equal group by
    group, so are the membership tests, a name has the same owner on both
    transports (the group whose list holds it), and the two chains make the
    same call and give the same outcome. *)
Theorem transports_route_identically :
  (forall g, Stdio.names g = Http.names g)
  /\ (forall g nm, Stdio.owns g nm = Http.owns g nm)
  /\ (forall nm, Stdio.owner nm = Http.owner nm)
  /\ (forall nm g, Stdio.owner nm = Some g <-> Http.owns g nm = true)
  /\ (forall (b : Behaviour) nm args log,
        Stdio.routeCall b nm args log = Http.routeCall b nm args log).
Proof.
  split; [| split; [| split; [| split]]].
  - intro g; destruct g; reflexivity.
  - apply owns_same.
  - apply owner_same.
  - intros nm g. rewrite owner_same. apply Http_owner_owns.
  - intros. now rewrite route_same.
Qed.

(** ** The chain on sample calls *)

Lemma unknown_name_rejected_witness :
  (forall g, Http.owns g "delete_contact_permanently" = false)
  /\ Http.callToolHandler alwaysNull "delete_contact_permanently" None [] =
       (inl {| code := InternalError;
               mcpMessage := "Tool execution failed: Error: Unknown tool: delete_contact_permanently" |},
        []).
Proof.
  split.
  - intro g; destruct g; reflexivity.
  - apply (unknown_name_rejected alwaysNull "delete_contact_permanently" None []).
    intro g; destruct g; reflexivity.
Defined.

(** C1 as stated fails twice. A name outside the catalog and outside every
    list is rejected by the HTTP handler with the code [InternalError]; and
    a name outside the catalog that a list holds is dispatched. *)
Lemma unknown_name_counterexample :
  (~ In "delete_contact_permanently" (map name (Http.getAllTools noTools))
   /\ Http.callToolHandler alwaysNull "delete_contact_permanently" (Some []) []
      = (inl {| code := InternalError;
                mcpMessage := "Tool execution failed: Error: Unknown tool: delete_contact_permanently" |},
         []))
  /\ (~ In "create_contact" (map name (Http.getAllTools noTools))
      /\ Http.callToolHandler alwaysNull "create_contact" (Some []) []
         = (inr (envelope JNull),
            [ mkCall ContactTools "create_contact" (JObject []) ])).
Proof.
  split; split.
  - simpl. tauto.
  - reflexivity.
  - simpl. tauto.
  - reflexivity.
Qed.

(** C2 at a failing call: the contact group fails with a 404 of the REST
    API. The stdio handler lets the plain error through, with no protocol
    error class; the HTTP handler reports [InvalidRequest]. *)
Theorem stdio_failure_not_translated :
  Stdio.callToolHandler backend404 "get_contact" None [] =
    (inl (newError "Request failed with status code 404"),
     [ mkCall ContactTools "get_contact" (JObject []) ])
  /\ Http.callToolHandler backend404 "get_contact" None [] =
       (inl {| code := InvalidRequest;
               mcpMessage := "Tool execution failed: Error: Request failed with status code 404" |},
        [ mkCall ContactTools "get_contact" (JObject []) ]).
Proof. split; reflexivity. Qed.

Lemma listed_name_dispatched_witness :
  Http.owns ContactTools "create_contact" = true
  /\ Http.routeCall alwaysNull "create_contact" None [] =
       (inr JNull, [ mkCall ContactTools "create_contact" (JObject []) ]).
Proof.
  split; [reflexivity |].
  apply (listed_name_dispatched alwaysNull "create_contact" ContactTools []).
  reflexivity.
Defined.

(** C3 as stated fails: a published name that no list holds takes the
    unknown-tool branch on both transports. *)
Lemma catalog_name_counterexample :
  In "ping" (map name (Http.getAllTools pingDefs))
  /\ In "ping" (map name (Stdio.getAllTools pingDefs))
  /\ Http.routeCall alwaysNull "ping" None []
       = (inl (newError "Unknown tool: ping"), [])
  /\ Stdio.routeCall alwaysNull "ping" None []
       = (inl (newError "Unknown tool: ping"), []).
Proof. repeat split; simpl; auto. Qed.

Lemma success_envelope_witness :
  Http.owns ContactTools "get_contact" = true
  /\ Http.callToolHandler (answers samplePayload) "get_contact" None [] =
       (inr {| content := [ {| type := "text";
                               text := JSON_stringify samplePayload |} ] |},
        [ mkCall ContactTools "get_contact" (JObject []) ]).
Proof.
  split; [reflexivity |].
  apply (success_envelope (answers samplePayload) "get_contact" None []
           ContactTools samplePayload); reflexivity.
Defined.

Example samplePayload_text :
  JSON_stringify samplePayload =
  "{" ++ newline
  ++ "  " ++ dquote ++ "id" ++ dquote ++ ": " ++ dquote ++ "c1" ++ dquote ++ ","
  ++ newline
  ++ "  " ++ dquote ++ "tags" ++ dquote ++ ": [" ++ newline
  ++ "    " ++ dquote ++ "a" ++ dquote ++ "," ++ newline
  ++ "    2" ++ newline
  ++ "  ]" ++ newline
  ++ "}".
Proof. reflexivity. Qed.

(** C8 as stated fails: two payloads with the same members in another
    order come back with different texts, so the key order of the text is
    the payload's own and not a stable one. *)
Lemma key_order_counterexample :
  Permutation [ ("a", JNumber "1"); ("b", JNumber "2") ]
              [ ("b", JNumber "2"); ("a", JNumber "1") ]
  /\ Http.callToolHandler (answers payloadAB) "get_contact" None []
     = (inr (envelope payloadAB),
        [ mkCall ContactTools "get_contact" (JObject []) ])
  /\ Http.callToolHandler (answers payloadBA) "get_contact" None []
     = (inr (envelope payloadBA),
        [ mkCall ContactTools "get_contact" (JObject []) ])
  /\ envelope payloadAB <> envelope payloadBA.
Proof.
  split; [apply perm_swap |]. split; [reflexivity |].
  split; [reflexivity |]. vm_compute. discriminate.
Qed.

(* ================================================================== *)
(** * Properties of the category classifier *)
(* ================================================================== *)

(** ** [arrSort] sorts *)

Lemma string_compare_refl s : String.compare s s = Eq.
Proof.
  induction s as [| c s IH]; simpl; [reflexivity |].
  unfold Ascii.compare. now rewrite N.compare_refl.
Qed.

Lemma string_compare_lt_trans s1 : forall s2 s3,
  String.compare s1 s2 = Lt -> String.compare s2 s3 = Lt ->
  String.compare s1 s3 = Lt.
Proof.
  induction s1 as [| c1 s1 IH]; intros [| c2 s2] [| c3 s3]; simpl;
    try congruence.
  unfold Ascii.compare.
  destruct (N.compare_spec (N_of_ascii c1) (N_of_ascii c2)) as [E12 | L12 | G12];
    try discriminate;
    destruct (N.compare_spec (N_of_ascii c2) (N_of_ascii c3)) as [E23 | L23 | G23];
    try discriminate; intros H12 H23.
  - rewrite E12, E23, N.compare_refl. eapply IH; eassumption.
  - rewrite E12. now apply N.compare_lt_iff in L23 as ->.
  - rewrite <- E23. now apply N.compare_lt_iff in L12 as ->.
  - assert (L : (N_of_ascii c1 < N_of_ascii c3)%N) by lia.
    now apply N.compare_lt_iff in L as ->.
Qed.

Lemma lexLe_trans a b c : lexLe a b -> lexLe b c -> lexLe a c.
Proof.
  unfold lexLe, String.leb. intros Hab Hbc.
  destruct (String.compare a b) eqn:Eab; try discriminate;
    destruct (String.compare b c) eqn:Ebc; try discriminate.
  - apply String.compare_eq_iff in Eab, Ebc. subst.
    now rewrite string_compare_refl.
  - apply String.compare_eq_iff in Eab. subst. now rewrite Ebc.
  - apply String.compare_eq_iff in Ebc. subst. now rewrite Eab.
  - now rewrite (string_compare_lt_trans _ _ _ Eab Ebc).
Qed.

Lemma insertSorted_perm x l : Permutation (insertSorted x l) (x :: l).
Proof.
  induction l as [| y l IH]; simpl; [reflexivity |].
  destruct (String.leb x y); [reflexivity |].
  rewrite IH. apply perm_swap.
Qed.

Lemma arrSort_perm l : Permutation (arrSort l) l.
Proof.
  induction l as [| x l IH]; simpl; [constructor |].
  rewrite insertSorted_perm. now constructor.
Qed.

Lemma insertSorted_sorted x l :
  Sorted lexLe l -> Sorted lexLe (insertSorted x l).
Proof.
  induction l as [| y l IH]; intro Hs; simpl.
  - repeat constructor.
  - destruct (String.leb x y) eqn:E.
    + constructor; [assumption | constructor; exact E].
    + inversion Hs as [| ? ? Hs' Hhd]; subst.
      constructor; [now apply IH |].
      assert (Hyx : lexLe y x).
      { destruct (String.leb_total x y) as [H | H]; [congruence | exact H]. }
      destruct l as [| z l]; simpl.
      * constructor. exact Hyx.
      * destruct (String.leb x z); constructor; [exact Hyx |].
        now inversion Hhd.
Qed.

Lemma arrSort_sorted l : Sorted lexLe (arrSort l).
Proof.
  induction l as [| x l IH]; simpl; [constructor |].
  now apply insertSorted_sorted.
Qed.

Lemma arrSort_strongly_sorted l : StronglySorted lexLe (arrSort l).
Proof.
  apply Sorted_StronglySorted; [| apply arrSort_sorted].
  intros a b c. apply lexLe_trans.
Qed.

Lemma arrSort_In x l : In x (arrSort l) <-> In x l.
Proof.
  split; apply Permutation_in;
    [apply arrSort_perm | symmetry; apply arrSort_perm].
Qed.

Lemma arrSort_length l : length (arrSort l) = length l.
Proof. apply Permutation_length, arrSort_perm. Qed.

(** ** The loop of [categorizeTools] *)

(** Decides one cue test; the branch where it holds closes at once. *)
Ltac cue c :=
  match goal with
  | |- context [strIncludes ?s c] =>
      destruct (strIncludes s c); [reflexivity |]
  end.

Ltac all_cues :=
  cue "contact"; cue "message"; cue "sms"; cue "email"; cue "conversation";
  cue "opportunity"; cue "pipeline"; cue "calendar"; cue "appointment";
  cue "event"; cue "payment"; cue "invoice"; cue "billing";
  cue "transaction"; cue "social"; cue "blog"; cue "media"; cue "campaign";
  cue "location"; cue "workflow"; cue "survey"; cue "store"; cue "object";
  cue "custom"; cue "field"; cue "association".

Lemma Http_step_label cats t :
  Http.categorizeStep cats t = push (classifySpec (name t)) (name t) cats.
Proof.
  unfold Http.categorizeStep, classifySpec.
  generalize (toLowerCase (name t)) as l. intro l.
  cbn [firstMatch priorityRules existsb].
  all_cues. reflexivity.
Qed.


Lemma Describe_categorizeTools_same ts :
  Describe.categorizeTools ts = Http.categorizeTools ts.
Proof. reflexivity. Qed.

Lemma classifySpec_label nm : In (classifySpec nm) labels.
Proof.
  unfold classifySpec. generalize (toLowerCase nm) as l. intro l.
  cbn [firstMatch priorityRules existsb].
  repeat match goal with
         | |- context [if ?b then _ else _] =>
             destruct b; [simpl; tauto |]
         end.
  simpl; tauto.
Qed.

Lemma push_map label x cats :
  NoDup (map fst cats) -> push label x cats = map (addTo label x) cats.
Proof.
  induction cats as [| [l xs] cats IH]; intro Hnd; simpl; [reflexivity |].
  inversion Hnd as [| ? ? Hnotin Hnd']; subst.
  unfold addTo at 1. simpl.
  destruct (l =? label) eqn:E.
  - f_equal. apply String.eqb_eq in E. subst l.
    clear IH Hnd Hnd'. induction cats as [| [l' xs'] cats IH]; [reflexivity |].
    simpl in *. unfold addTo at 1. simpl.
    destruct (l' =? label) eqn:E'.
    + apply String.eqb_eq in E'. subst. tauto.
    + f_equal. apply IH. tauto.
  - f_equal. now apply IH.
Qed.

Lemma addTo_keys label x cats : map fst (map (addTo label x) cats) = map fst cats.
Proof. rewrite map_map. reflexivity. Qed.

Lemma bucket_cons label t ts :
  bucket label (t :: ts) =
    if classifySpec (name t) =? label then name t :: bucket label ts
    else bucket label ts.
Proof.
  unfold bucket. simpl. now destruct (classifySpec (name t) =? label).
Qed.

Lemma fold_buckets ts : forall cats,
  NoDup (map fst cats) ->
  fold_left Http.categorizeStep ts cats =
    map (fun entry => (fst entry, (snd entry ++ bucket (fst entry) ts)%list)) cats.
Proof.
  induction ts as [| t ts IH]; intros cats Hnd; simpl.
  - rewrite <- (map_id cats) at 1. apply map_ext.
    intros [l xs]. simpl. now rewrite app_nil_r.
  - rewrite Http_step_label, push_map by assumption.
    rewrite IH by now rewrite addTo_keys.
    rewrite map_map. apply map_ext. intros [l xs]. simpl.
    rewrite bucket_cons, (String.eqb_sym (classifySpec (name t)) l).
    destruct (l =? classifySpec (name t)); [| reflexivity].
    now rewrite <- app_assoc.
Qed.

Lemma labels_NoDup : NoDup labels.
Proof.
  unfold labels. simpl.
  repeat (constructor; [simpl; intuition discriminate |]). constructor.
Qed.

Lemma finish_buckets ts ls :
  finishCategories (map (fun l => (l, bucket l ts)) ls) =
    map (categoryOf ts) (filter (nonEmpty ts) ls).
Proof.
  unfold finishCategories.
  induction ls as [| l ls IH]; simpl; [reflexivity |].
  unfold nonEmpty at 1.
  destruct (Nat.ltb 0 (length (bucket l ts))); simpl; now rewrite IH.
Qed.

Lemma categorizeTools_buckets ts :
  Http.categorizeTools ts = map (categoryOf ts) (filter (nonEmpty ts) labels).
Proof.
  unfold Http.categorizeTools.
  rewrite fold_buckets by apply labels_NoDup.
  rewrite <- finish_buckets. reflexivity.
Qed.

Lemma In_categorizeTools ts c :
  In c (Http.categorizeTools ts) <->
  exists label, In label labels /\ bucket label ts <> []
                /\ c = categoryOf ts label.
Proof.
  rewrite categorizeTools_buckets, in_map_iff. split.
  - intros [l [Hc Hl]]. apply filter_In in Hl. destruct Hl as [Hl Hne].
    exists l. repeat split; auto.
    unfold nonEmpty in Hne. intro E. rewrite E in Hne. discriminate.
  - intros [l [Hl [Hne Hc]]]. exists l. split; [now symmetry |].
    apply filter_In. split; [assumption |].
    unfold nonEmpty. destruct (bucket l ts); [congruence | reflexivity].
Qed.

Lemma In_bucket x label ts :
  In x (bucket label ts) <->
  exists t, In t ts /\ name t = x /\ classifySpec x = label.
Proof.
  unfold bucket. rewrite in_map_iff. split.
  - intros [t [Hn Ht]]. apply filter_In in Ht. destruct Ht as [Ht Hc].
    apply String.eqb_eq in Hc. exists t. subst. auto.
  - intros [t [Ht [Hn Hc]]]. exists t. split; [assumption |].
    apply filter_In. split; [assumption |]. subst. apply String.eqb_refl.
Qed.


Lemma filter_split {A : Type} (p : A -> bool) (l : list A) :
  Permutation l (filter p l ++ filter (fun a => negb (p a)) l).
Proof.
  induction l as [| a l IH]; simpl; [constructor |].
  destruct (p a); simpl.
  - now constructor.
  - now apply Permutation_cons_app.
Qed.

Lemma bucket_rest l l' ts :
  l' <> l ->
  bucket l' (filter (fun t => negb (classifySpec (name t) =? l)) ts)
  = bucket l' ts.
Proof.
  intro Hne. unfold bucket. f_equal.
  induction ts as [| t ts IH]; simpl; [reflexivity |].
  destruct (classifySpec (name t) =? l) eqn:E; simpl.
  - apply String.eqb_eq in E.
    destruct (classifySpec (name t) =? l') eqn:E'; [| exact IH].
    apply String.eqb_eq in E'. congruence.
  - destruct (classifySpec (name t) =? l'); now rewrite IH.
Qed.

Lemma buckets_partition ls : NoDup ls -> forall ts,
  (forall t, In t ts -> In (classifySpec (name t)) ls) ->
  Permutation (concat (map (fun l => bucket l ts) ls)) (map name ts).
Proof.
  induction ls as [| l ls IH]; intros Hnd ts Hall.
  - destruct ts as [| t ts]; [constructor |].
    destruct (Hall t (or_introl eq_refl)).
  - inversion Hnd as [| ? ? Hnotin Hnd']; subst. simpl.
    set (rest := filter (fun t => negb (classifySpec (name t) =? l)) ts).
    assert (E : map (fun l' => bucket l' ts) ls
                = map (fun l' => bucket l' rest) ls).
    { apply map_ext_in. intros l' Hl'. symmetry. apply bucket_rest.
      intro Heq. subst. contradiction. }
    rewrite E, (IH Hnd' rest).
    + unfold bucket, rest. rewrite <- map_app. apply Permutation_map.
      symmetry. apply filter_split.
    + intros t Ht. apply filter_In in Ht. destruct Ht as [Ht Hc].
      destruct (Hall t Ht) as [Heq | Hin]; [| exact Hin].
      rewrite <- Heq, String.eqb_refl in Hc. discriminate.
Qed.

Lemma concat_nonEmpty ts ls :
  concat (map (fun l => bucket l ts) (filter (nonEmpty ts) ls))
  = concat (map (fun l => bucket l ts) ls).
Proof.
  induction ls as [| l ls IH]; simpl; [reflexivity |].
  unfold nonEmpty at 1.
  destruct (bucket l ts) eqn:E; simpl; [exact IH |].
  now rewrite E, IH.
Qed.

Lemma concat_sorted_perm ts ls :
  Permutation (concat (map tools (map (categoryOf ts) ls)))
              (concat (map (fun l => bucket l ts) ls)).
Proof.
  induction ls as [| l ls IH]; simpl; [constructor |].
  apply Permutation_app; [apply arrSort_perm | exact IH].
Qed.

Lemma own_category_listed ts t :
  In t ts ->
  In (categoryOf ts (classifySpec (name t))) (Http.categorizeTools ts).
Proof.
  intro Ht. apply In_categorizeTools. exists (classifySpec (name t)).
  split; [apply classifySpec_label |]. split; [| reflexivity].
  intro E. assert (H : In (name t) (bucket (classifySpec (name t)) ts)).
  { apply In_bucket. exists t. auto. }
  rewrite E in H. destruct H.
Qed.

Lemma bucket_names label ts :
  bucket label ts = filter (fun x => classifySpec x =? label) (map name ts).
Proof.
  unfold bucket. induction ts as [| t ts IH]; simpl; [reflexivity |].
  destruct (classifySpec (name t) =? label); simpl; now rewrite IH.
Qed.

Lemma categorizeTools_names ts ts' :
  map name ts = map name ts' ->
  Http.categorizeTools ts = Http.categorizeTools ts'.
Proof.
  intro E. rewrite !categorizeTools_buckets.
  assert (B : forall l, bucket l ts = bucket l ts').
  { intro l. now rewrite !bucket_names, E. }
  rewrite (filter_ext (nonEmpty ts) (nonEmpty ts'))
    by (intro l; unfold nonEmpty; now rewrite B).
  apply map_ext. intro l. unfold categoryOf. now rewrite B.
Qed.

(** C7: the classifier is a function of the sequence of names; for every
    catalog each tool's name is listed by exactly one category of the
    output, the member lists taken together are a rearrangement of the
    names of the catalog, every member list is sorted by code-unit order
    and not empty, its count is its length, and no label occurs twice. *)
Theorem classification_total_sorted (ts : list ToolDefinition) :
  Describe.categorizeTools ts = Http.categorizeTools ts
  /\ (forall ts', map name ts = map name ts' ->
        Http.categorizeTools ts = Http.categorizeTools ts')
  /\ (forall t, In t ts ->
        exists! c, In c (Http.categorizeTools ts) /\ In (name t) (tools c))
  /\ (forall c, In c (Http.categorizeTools ts) ->
        StronglySorted lexLe (tools c)
        /\ tools c <> []
        /\ count c = length (tools c))
  /\ Permutation (concat (map tools (Http.categorizeTools ts))) (map name ts)
  /\ NoDup (map catName (Http.categorizeTools ts)).
Proof.
  split; [reflexivity |].
  split; [apply categorizeTools_names |]. split; [| split; [| split]].
  - intros t Ht. exists (categoryOf ts (classifySpec (name t))). split.
    + split.
      * now apply own_category_listed.
      * simpl. apply arrSort_In, In_bucket. exists t. auto.
    + intros c [Hc Hin]. apply In_categorizeTools in Hc.
      destruct Hc as [l [_ [_ ->]]]. simpl in Hin.
      apply arrSort_In, In_bucket in Hin. destruct Hin as [_ [_ [_ <-]]].
      reflexivity.
  - intros c Hc. apply In_categorizeTools in Hc.
    destruct Hc as [l [_ [Hne ->]]]. simpl. split; [| split].
    + apply arrSort_strongly_sorted.
    + intro E. apply Hne. apply (f_equal (@List.length string)) in E.
      rewrite arrSort_length in E. simpl in E.
      now apply length_zero_iff_nil.
    + now rewrite arrSort_length.
  - rewrite categorizeTools_buckets, concat_sorted_perm, concat_nonEmpty.
    apply buckets_partition; [apply labels_NoDup |].
    intros t _. apply classifySpec_label.
  - rewrite categorizeTools_buckets, map_map.
    rewrite (map_ext _ (fun l => l)) by reflexivity.
    rewrite map_id. apply NoDup_filter, labels_NoDup.
Qed.

Example classify_examples :
  classifySpec "create_contact" = "Contact Management"
  /\ classifySpec "send_sms" = "Messaging & Communication"
  /\ classifySpec "get_contact_appointments" = "Contact Management"
  /\ classifySpec "create_email_template" = "Messaging & Communication"
  /\ classifySpec "list_transactions" = "Payments & Billing"
  /\ classifySpec "get_timezones" = "Other".
Proof. repeat split. Qed.

(* ================================================================== *)
(** * Properties of the catalog and of the describe operations *)
(* ================================================================== *)

(** ** [getAllTools] *)

Lemma concatGroups_concat defs : concatGroups defs = concat (map defs allGroups).
Proof. unfold concatGroups. simpl. now rewrite app_nil_r. Qed.

Lemma nameCount_app x ts us :
  nameCount x (ts ++ us) = nameCount x ts + nameCount x us.
Proof. unfold nameCount. now rewrite map_app, count_occ_app. Qed.

Lemma nameCount_concat x (defs : Group -> list ToolDefinition) gs :
  nameCount x (concat (map defs gs))
  = list_sum (map (fun g => nameCount x (defs g)) gs).
Proof.
  induction gs as [| g gs IH]; simpl; [reflexivity |].
  now rewrite nameCount_app, IH.
Qed.

Lemma nameCount_pos x t ts : In t ts -> name t = x -> 0 < nameCount x ts.
Proof.
  intros Hin Hn. unfold nameCount. apply count_occ_In.
  apply in_map_iff. exists t. auto.
Qed.

Lemma list_sum_two {A : Type} (f : A -> nat) (a b : A) (l : list A) :
  a <> b -> In a l -> In b l -> f a + f b <= list_sum (map f l).
Proof.
  intros Hne.
  assert (One : forall c l', In c l' -> f c <= list_sum (map f l')).
  { intros c l'. induction l' as [| d l' IH]; simpl; [tauto |].
    intros [-> | H]; [lia |]. specialize (IH H). lia. }
  induction l as [| c l IH]; simpl; [tauto |].
  intros [-> | Ha] [-> | Hb].
  - congruence.
  - specialize (One b l Hb). lia.
  - specialize (One a l Ha). lia.
  - specialize (IH Ha Hb). lia.
Qed.

(** C4, as the code has it: [getAllTools] is the concatenation of the
    groups' lists in registration order, the same on both servers, and it
    checks nothing: a name occurs in the catalog as often as in all the
    lists together, so a name that two groups publish occurs at least twice
    and construction does not fail. *)
Theorem catalog_keeps_duplicates (defs : Group -> list ToolDefinition) :
  Http.getAllTools defs = concat (map defs allGroups)
  /\ Stdio.getAllTools defs = Http.getAllTools defs
  /\ (forall x,
        nameCount x (Http.getAllTools defs)
        = list_sum (map (fun g => nameCount x (defs g)) allGroups))
  /\ (forall g1 g2 t1 t2,
        g1 <> g2 -> In t1 (defs g1) -> In t2 (defs g2) -> name t1 = name t2 ->
        2 <= nameCount (name t1) (Http.getAllTools defs)
        /\ ~ NoDup (map name (Http.getAllTools defs))).
Proof.
  assert (C : forall x,
        nameCount x (Http.getAllTools defs)
        = list_sum (map (fun g => nameCount x (defs g)) allGroups)).
  { intro x. unfold Http.getAllTools.
    rewrite concatGroups_concat. apply nameCount_concat. }
  split; [apply concatGroups_concat |]. split; [reflexivity |].
  split; [exact C |].
  intros g1 g2 t1 t2 Hne H1 H2 Hn.
  assert (Two : 2 <= nameCount (name t1) (Http.getAllTools defs)).
  { rewrite C.
    pose proof (list_sum_two (fun g => nameCount (name t1) (defs g))
                  g1 g2 allGroups Hne (In_allGroups g1) (In_allGroups g2)) as S.
    pose proof (nameCount_pos (name t1) t1 (defs g1) H1 eq_refl).
    pose proof (nameCount_pos (name t1) t2 (defs g2) H2 (eq_sym Hn)).
    cbv beta in S. lia. }
  split; [exact Two |].
  intro Hnd. rewrite (NoDup_count_occ string_dec) in Hnd.
  specialize (Hnd (name t1)). unfold nameCount in Two. lia.
Qed.

(** C4 as stated fails: two groups publish the name x and the catalog is
    built, with both entries. *)
Lemma duplicate_name_counterexample :
  Http.getAllTools dupDefs = [ plainTool "x" "first"; plainTool "x" "second" ]
  /\ Stdio.getAllTools dupDefs = [ plainTool "x" "first"; plainTool "x" "second" ]
  /\ nameCount "x" (Http.getAllTools dupDefs) = 2.
Proof. repeat split. Qed.

(** ** Describe one tool *)

Lemma find_first (catalog : list ToolDefinition) : forall i t,
  nth_error catalog i = Some t ->
  (forall j t', j < i -> nth_error catalog j = Some t' -> name t' <> name t) ->
  arrFind (fun t0 => name t0 =? name t) catalog = Some t.
Proof.
  unfold arrFind.
  induction catalog as [| t0 catalog IH]; intros i t Hi Hfirst.
  - destruct i; discriminate.
  - destruct i as [| i]; simpl in *.
    + injection Hi as ->. now rewrite String.eqb_refl.
    + destruct (name t0 =? name t) eqn:E.
      * apply String.eqb_eq in E.
        exfalso. apply (Hfirst 0 t0); [lia | reflexivity | exact E].
      * apply (IH i); [exact Hi |].
        intros j t' Hj Hn. apply (Hfirst (S j) t'); [lia | exact Hn].
Qed.

Lemma find_byName_some catalog nm t :
  arrFind (fun t0 => name t0 =? nm) catalog = Some t ->
  In t catalog /\ name t = nm.
Proof.
  unfold arrFind. intro H. apply find_some in H.
  destruct H as [Hin Hn]. apply String.eqb_eq in Hn. auto.
Qed.

Lemma find_byName_none catalog nm :
  ~ In nm (map name catalog) ->
  arrFind (fun t0 => name t0 =? nm) catalog = None.
Proof.
  unfold arrFind. intro H.
  destruct (find (fun t0 => name t0 =? nm) catalog) as [t |] eqn:E;
    [| reflexivity].
  apply find_some in E. destruct E as [Hin Hn]. apply String.eqb_eq in Hn.
  exfalso. apply H. apply in_map_iff. exists t. auto.
Qed.

Lemma find_byName_present catalog nm :
  In nm (map name catalog) ->
  exists t, arrFind (fun t0 => name t0 =? nm) catalog = Some t.
Proof.
  unfold arrFind. intro H. apply in_map_iff in H. destruct H as [t [Hn Hin]].
  destruct (find (fun t0 => name t0 =? nm) catalog) as [t' |] eqn:E;
    [now exists t' |].
  eapply find_none in E; [| exact Hin]. simpl in E.
  rewrite Hn, String.eqb_refl in E. discriminate.
Qed.

Lemma NoDup_names_first (catalog : list ToolDefinition) i t :
  NoDup (map name catalog) ->
  nth_error catalog i = Some t ->
  forall j t', j < i -> nth_error catalog j = Some t' -> name t' <> name t.
Proof.
  intros Hnd Hi j t' Hj Hn Heq.
  rewrite NoDup_nth_error in Hnd.
  assert (Hlen : j < length (map name catalog)).
  { rewrite length_map. apply nth_error_Some. congruence. }
  specialize (Hnd j i Hlen).
  rewrite !nth_error_map, Hn, Hi in Hnd. simpl in Hnd.
  rewrite Heq in Hnd. specialize (Hnd eq_refl). lia.
Qed.

(** C9, as the code has it: when no earlier entry of the listed catalog
    has the name of entry [i], describing that name answers entry [i] on the
    HTTP route and in the describe handler, and describing the name of the
    described tool answers it again. *)
Theorem describe_roundtrip_first (defs : Group -> list ToolDefinition)
  (i : nat) (t : ToolDefinition) :
  nth_error (fst (Http.listToolsHandler defs)) i = Some t ->
  (forall j t', j < i ->
     nth_error (fst (Http.listToolsHandler defs)) j = Some t' ->
     name t' <> name t) ->
  describedByRoute (Http.describeToolRoute defs (name t)) = Some t
  /\ fst (Http.describeToolRoute defs (name t)) = 200
  /\ describedByHandler
       (Describe.getToolDescription (Stdio.listToolsHandler defs) (name t))
     = Some t
  /\ (forall d,
        snd (Http.describeToolRoute defs (name t)) = inr d ->
        describedByRoute (Http.describeToolRoute defs (name (Http.tool d)))
        = Some t)
  /\ (forall d,
        Describe.getToolDescription (Stdio.listToolsHandler defs) (name t)
        = inr d ->
        describedByHandler
          (Describe.getToolDescription (Stdio.listToolsHandler defs)
             (name (Describe.tool d)))
        = Some t).
Proof.
  intros Hi Hfirst.
  pose proof (find_first _ i t Hi Hfirst) as F.
  unfold Http.describeToolRoute, Describe.getToolDescription.
  change (Stdio.listToolsHandler defs) with (Http.getAllTools defs).
  change (fst (Http.listToolsHandler defs)) with (Http.getAllTools defs) in F.
  rewrite F. simpl. repeat split.
  - intros d Hd. injection Hd as <-. simpl. now rewrite F.
  - intros d Hd. injection Hd as <-. simpl. now rewrite F.
Qed.

Lemma describe_roundtrip_first_witness :
  nth_error (fst (Http.listToolsHandler dupDefs)) 0
  = Some (plainTool "x" "first")
  /\ describedByRoute (Http.describeToolRoute dupDefs "x")
     = Some (plainTool "x" "first").
Proof.
  split; [reflexivity |].
  apply (describe_roundtrip_first dupDefs 0 (plainTool "x" "first")).
  - reflexivity.
  - intros j t' Hj. lia.
Defined.

(** C9 as stated fails at index 1 of a catalog with a repeated name: the
    describe operations answer the entry at index 0, whose description
    differs. *)
Lemma describe_roundtrip_counterexample :
  nth_error (fst (Http.listToolsHandler dupDefs)) 1
  = Some (plainTool "x" "second")
  /\ describedByRoute (Http.describeToolRoute dupDefs "x")
     = Some (plainTool "x" "first")
  /\ describedByHandler
       (Describe.getToolDescription (Stdio.listToolsHandler dupDefs) "x")
     = Some (plainTool "x" "first")
  /\ plainTool "x" "first" <> plainTool "x" "second".
Proof. repeat split. discriminate. Qed.

Lemma describe_roundtrip_unique (defs : Group -> list ToolDefinition)
  (i : nat) (t : ToolDefinition) :
  NoDup (map name (Http.getAllTools defs)) ->
  nth_error (Http.getAllTools defs) i = Some t ->
  describedByRoute (Http.describeToolRoute defs (name t)) = Some t
  /\ describedByHandler
       (Describe.getToolDescription (Http.getAllTools defs) (name t))
     = Some t.
Proof.
  intros Hnd Hi.
  pose proof (find_first _ i t Hi (NoDup_names_first _ i t Hnd Hi)) as F.
  unfold Http.describeToolRoute, Describe.getToolDescription.
  rewrite F. simpl. auto.
Qed.

(** ** The description of one tool *)

Lemma prefix_strIncludes w s : prefix w s = true -> strIncludes s w = true.
Proof. intro H. destruct s; cbn [strIncludes]; now rewrite H. Qed.

Lemma strIncludes_tail c s w :
  strIncludes s w = true -> strIncludes (String c s) w = true.
Proof.
  intro H. cbn [strIncludes]. now destruct (prefix w (String c s)).
Qed.

Lemma entityMatch_sound s : forall w,
  Describe.entityMatch s = Some w ->
  In w Describe.entityWords /\ strIncludes s w = true.
Proof.
  induction s as [| c s IH]; intros w; cbn [Describe.entityMatch];
    destruct (find (fun w0 => prefix w0 _) Describe.entityWords) as [w0 |] eqn:E;
    intro H; try discriminate.
  - injection H as <-. apply find_some in E. destruct E as [E1 E2].
    split; [exact E1 | now apply prefix_strIncludes].
  - destruct (IH w H) as [H1 H2]. split; [exact H1 |].
    now apply strIncludes_tail.
Qed.

Lemma In_firstn {A : Type} (n : nat) (l : list A) (x : A) :
  In x (firstn n l) -> In x l.
Proof.
  intro H. rewrite <- (firstn_skipn n l). apply in_or_app. now left.
Qed.

Lemma findRelatedTools_spec (t : ToolDefinition)
  (catalog : list ToolDefinition) :
  length (Describe.findRelatedTools t catalog) <= 5
  /\ forall r, In r (Describe.findRelatedTools t catalog) ->
       r <> name t
       /\ In r (map name catalog)
       /\ exists w, In w Describe.entityWords
                    /\ strIncludes (toLowerCase (name t)) w = true
                    /\ strIncludes (toLowerCase r) w = true.
Proof.
  unfold Describe.findRelatedTools, slice0. split; [apply firstn_le_length |].
  intros r Hr. apply In_firstn in Hr.
  destruct (Describe.entityMatch (toLowerCase (name t))) as [w |] eqn:E;
    [| destruct Hr].
  apply entityMatch_sound in E. destruct E as [Hw Ht].
  apply in_map_iff in Hr. destruct Hr as [t' [<- Hin]].
  apply filter_In in Hin. destruct Hin as [Hin Hp].
  apply andb_true_iff in Hp. destruct Hp as [Hne Hinc].
  apply negb_true_iff, String.eqb_neq in Hne.
  split; [exact Hne |]. split; [now apply in_map |].
  exists w. auto.
Qed.

Lemma category_of_one (t : ToolDefinition) :
  match Describe.categorizeTools [t] with
  | c :: _ => catName c
  | [] => "Other"
  end = classifySpec (name t).
Proof.
  rewrite Describe_categorizeTools_same.
  pose proof (own_category_listed [t] t (or_introl eq_refl)) as Hc0.
  destruct (Http.categorizeTools [t]) as [| c rest] eqn:E; [destruct Hc0 |].
  assert (Hc : In c (Http.categorizeTools [t])) by (rewrite E; now left).
  apply In_categorizeTools in Hc. destruct Hc as [l [_ [Hne ->]]]. simpl.
  destruct (bucket l [t]) as [| x xs] eqn:B; [congruence |].
  assert (Hx : In x (bucket l [t])) by (rewrite B; now left).
  apply In_bucket in Hx. destruct Hx as [t' [[<- | []] [<- Hcl]]].
  now symmetry.
Qed.

Lemma exampleField_value field prop args :
  Describe.exampleField field prop args =
    match exampleValue field prop with
    | Some v => setProp field v args
    | None => args
    end.
Proof.
  unfold Describe.exampleField, exampleValue, placeholder.
  destruct (getProp "type" prop) as [[| | | ty | |] |]; try reflexivity.
  repeat match goal with
         | |- context [if ?b then _ else _] => destruct b; try reflexivity
         end.
Qed.

Lemma assoc_replaceProp {A : Type} (k k' : string) (v : A) kvs :
  assoc k (replaceProp k' v kvs)
  = if k' =? k then match assoc k kvs with
                    | Some _ => Some v
                    | None => None
                    end
    else assoc k kvs.
Proof.
  induction kvs as [| [k0 v0] kvs IH]; simpl.
  - now destruct (k' =? k).
  - destruct (k0 =? k') eqn:E0; simpl.
    + apply String.eqb_eq in E0. subst k0. now destruct (k' =? k).
    + rewrite IH. destruct (k0 =? k) eqn:E1; [| reflexivity].
      apply String.eqb_eq in E1. subst k0.
      rewrite String.eqb_sym in E0. now rewrite E0.
Qed.

Lemma assoc_insertIndex {A : Type} (i : N) (k k' : string) (v : A) kvs :
  assoc k' kvs = None ->
  assoc k (insertIndex i k' v kvs)
  = if k' =? k then Some v else assoc k kvs.
Proof.
  induction kvs as [| [k0 v0] kvs IH]; simpl; intro H; [reflexivity |].
  destruct (k0 =? k') eqn:E0; [discriminate H |].
  destruct (arrayIndex k0) as [j |]; [destruct (N.ltb i j) |];
    try reflexivity.
  simpl. rewrite (IH H). destruct (k0 =? k) eqn:E1; [| reflexivity].
  apply String.eqb_eq in E1. subst k0.
  rewrite String.eqb_sym in E0. now rewrite E0.
Qed.

Lemma assoc_app_last {A : Type} (k k' : string) (v : A) kvs :
  assoc k' kvs = None ->
  assoc k (kvs ++ [(k', v)])%list
  = if k' =? k then Some v else assoc k kvs.
Proof.
  induction kvs as [| [k0 v0] kvs IH]; simpl; intro H; [reflexivity |].
  destruct (k0 =? k') eqn:E0; [discriminate H |].
  rewrite (IH H). destruct (k0 =? k) eqn:E1; [| reflexivity].
  apply String.eqb_eq in E1. subst k0.
  rewrite String.eqb_sym in E0. now rewrite E0.
Qed.

Lemma assoc_setProp {A : Type} (k k' : string) (v : A) kvs :
  assoc k (setProp k' v kvs)
  = if k' =? "__proto__" then assoc k kvs
    else if k' =? k then Some v else assoc k kvs.
Proof.
  unfold setProp. destruct (k' =? "__proto__"); [reflexivity |].
  destruct (assoc k' kvs) as [v0 |] eqn:E.
  - rewrite assoc_replaceProp. destruct (k' =? k) eqn:Ek; [| reflexivity].
    apply String.eqb_eq in Ek. subst k'. now rewrite E.
  - destruct (arrayIndex k') as [i |].
    + now apply assoc_insertIndex.
    + now apply assoc_app_last.
Qed.

(** A loop of assignments, read key by key: the last assignment to a key
    that leaves a value decides. *)
Lemma fold_assign_assoc (step : list (string * JSON) -> string ->
                                list (string * JSON))
  (val : string -> option JSON) :
  (forall args x f,
     assoc f (step args x)
     = if x =? f then match val f with
                      | Some v => Some v
                      | None => assoc f args
                      end
       else assoc f args) ->
  forall fields args f,
    assoc f (fold_left step fields args)
    = match (if includes fields f then val f else None) with
      | Some v => Some v
      | None => assoc f args
      end.
Proof.
  intro Hstep. induction fields as [| x fields IH]; intros args f;
    [reflexivity |].
  cbn [fold_left]. rewrite IH, Hstep. unfold includes. cbn [existsb].
  fold (includes fields f).
  destruct (includes fields f); cbn [orb].
  - rewrite orb_true_r. destruct (val f); [reflexivity |].
    now destruct (x =? f).
  - rewrite orb_false_r. now destruct (x =? f).
Qed.

Lemma example_args_fold props fields : forall args f,
  assoc f
    (fold_left
       (fun args0 field =>
          match assoc field props with
          | Some prop =>
              if truthy prop then Describe.exampleField field prop args0
              else args0
          | None => args0
          end) fields args)
  = match (if includes fields f then valueFor props f else None) with
    | Some v => Some v
    | None => assoc f args
    end.
Proof.
  apply fold_assign_assoc. intros args x f. unfold valueFor.
  destruct (x =? f) eqn:E.
  - apply String.eqb_eq in E. subst x.
    destruct (assoc f props) as [prop |];
      [| now destruct (f =? "__proto__")].
    destruct (truthy prop); [| now destruct (f =? "__proto__")].
    rewrite exampleField_value.
    destruct (exampleValue f prop); [| now destruct (f =? "__proto__")].
    rewrite assoc_setProp, String.eqb_refl.
    now destruct (f =? "__proto__").
  - destruct (assoc x props) as [prop |]; [| reflexivity].
    destruct (truthy prop); [| reflexivity].
    rewrite exampleField_value.
    destruct (exampleValue x prop); [| reflexivity].
    rewrite assoc_setProp, E. now destruct (x =? "__proto__").
Qed.

Lemma generateToolExamples_spec (t : ToolDefinition) :
  match inputSchema t with
  | None => Describe.generateToolExamples t = []
  | Some schema =>
      match properties schema with
      | None => Describe.generateToolExamples t = []
      | Some props =>
          exists args,
            Describe.generateToolExamples t =
              [ {| Describe.exTool := name t; Describe.exArguments := args |} ]
            /\ forall f,
                 assoc f args =
                   if includes (requiredOf schema) f then valueFor props f
                   else None
      end
  end.
Proof.
  unfold Describe.generateToolExamples.
  destruct (inputSchema t) as [schema |]; [| reflexivity].
  destruct (properties schema) as [props |]; [| reflexivity].
  eexists. split; [reflexivity |].
  intro f. rewrite example_args_fold. fold (requiredOf schema).
  destruct (includes (requiredOf schema) f); [| reflexivity].
  now destruct (valueFor props f).
Qed.

Lemma getToolCategory_agrees (nm : string) :
  strIncludes (toLowerCase nm) "event" = false ->
  strIncludes (toLowerCase nm) "transaction" = false ->
  strIncludes (toLowerCase nm) "campaign" = false ->
  Http.getToolCategory nm = classifySpec nm.
Proof.
  unfold Http.getToolCategory, classifySpec.
  generalize (toLowerCase nm) as l. intros l He Ht Hc.
  cbn [firstMatch priorityRules existsb]. rewrite He, Ht, Hc.
  cue "contact"; cue "message"; cue "sms"; cue "email"; cue "conversation";
  cue "opportunity"; cue "pipeline"; cue "calendar"; cue "appointment";
  cue "payment"; cue "invoice"; cue "billing";
  cue "social"; cue "blog"; cue "media";
  cue "location"; cue "workflow"; cue "survey"; cue "store"; cue "object";
  cue "custom"; cue "field"; cue "association".
  reflexivity.
Qed.

(** C5, as the code has it. The describe handler answers, for a name of
    its catalog, the first definition with that name; the examples built
    from the schema; at most five related names, each another name of the
    catalog that shares an entity word with the tool; and the label the
    classifier gives the name. For a name outside the catalog it fails with
    the not-found error. The examples are empty without declared
    properties, and otherwise one example whose arguments give exactly the
    required fields, other than [__proto__], that have a declared property
    of a known type, each with the literal of that type: for a string the
    email, phone, id or generic placeholder, for a number 100 or 1, for a
    boolean true, for an object and an array the empty one. The HTTP route
    answers the first definition with that name, and 404 with the
    not-found text for a name outside the catalog. *)
Theorem describe_one_tool (catalog : list ToolDefinition)
  (defs : Group -> list ToolDefinition) (nm : string) :
  (In nm (map name catalog) ->
     exists t,
       arrFind (fun t0 => name t0 =? nm) catalog = Some t
       /\ In t catalog /\ name t = nm
       /\ Describe.getToolDescription catalog nm =
            inr {| Describe.tool := t;
                   Describe.examples := Describe.generateToolExamples t;
                   Describe.relatedTools := Describe.findRelatedTools t catalog;
                   Describe.category := classifySpec nm |}
       /\ length (Describe.findRelatedTools t catalog) <= 5
       /\ (forall r, In r (Describe.findRelatedTools t catalog) ->
             r <> nm /\ In r (map name catalog)
             /\ exists w, In w Describe.entityWords
                          /\ strIncludes (toLowerCase nm) w = true
                          /\ strIncludes (toLowerCase r) w = true))
  /\ (~ In nm (map name catalog) ->
        Describe.getToolDescription catalog nm =
          inl (newError ("Tool '" ++ nm ++ "' not found")))
  /\ (forall t,
        match inputSchema t with
        | None => Describe.generateToolExamples t = []
        | Some schema =>
            match properties schema with
            | None => Describe.generateToolExamples t = []
            | Some props =>
                exists args,
                  Describe.generateToolExamples t =
                    [ {| Describe.exTool := name t;
                         Describe.exArguments := args |} ]
                  /\ forall f,
                       assoc f args =
                         if includes (requiredOf schema) f
                         then valueFor props f
                         else None
            end
        end)
  /\ (In nm (map name (Http.getAllTools defs)) ->
        exists t d,
          arrFind (fun t0 => name t0 =? nm) (Http.getAllTools defs) = Some t
          /\ In t (Http.getAllTools defs) /\ name t = nm
          /\ Http.describeToolRoute defs nm = (200, inr d)
          /\ Http.tool d = t)
  /\ (~ In nm (map name (Http.getAllTools defs)) ->
        Http.describeToolRoute defs nm =
          (404, inl ("Tool '" ++ nm ++ "' not found"))).
Proof.
  split; [| split; [| split; [| split]]].
  - intro Hin. destruct (find_byName_present catalog nm Hin) as [t F].
    destruct (find_byName_some catalog nm t F) as [Ht Hn].
    pose proof (findRelatedTools_spec t catalog) as [Hlen Hrel].
    exists t. split; [exact F |]. split; [exact Ht |]. split; [exact Hn |].
    split; [| split; [exact Hlen |]].
    + unfold Describe.getToolDescription. rewrite F.
      rewrite category_of_one, Hn. reflexivity.
    + intros r Hr. rewrite <- Hn. apply Hrel, Hr.
  - intro Hout. unfold Describe.getToolDescription.
    now rewrite (find_byName_none catalog nm Hout).
  - apply generateToolExamples_spec.
  - intro Hin.
    destruct (find_byName_present (Http.getAllTools defs) nm Hin) as [t F].
    destruct (find_byName_some _ nm t F) as [Ht Hn].
    unfold Http.describeToolRoute. rewrite F.
    eexists t, _. split; [reflexivity |].
    split; [exact Ht |]. split; [exact Hn |]. split; reflexivity.
  - intro Hout. unfold Http.describeToolRoute.
    now rewrite (find_byName_none _ nm Hout).
Qed.

(** C5 as stated fails: the required field limit, which holds none of
    email, phone and id, is declared a number and receives the number 1,
    not the generic placeholder string; and the HTTP route builds no
    arguments at all. *)
Lemma describe_one_tool_counterexample :
  Describe.getToolDescription [ searchTool ] "search_contacts" =
    inr {| Describe.tool := searchTool;
           Describe.examples :=
             [ {| Describe.exTool := "search_contacts";
                  Describe.exArguments :=
                    [ ("limit", JNumber "1");
                      ("email", JString "user@example.com") ] |} ];
           Describe.relatedTools := [];
           Describe.category := "Contact Management" |}
  /\ placeholder "limit" = "example_value"
  /\ Http.describeToolRoute searchDefs "search_contacts" =
       (200, inr {| Http.tool := searchTool;
                    Http.examples :=
                      [ {| Http.exTool := "search_contacts";
                           Http.exArguments := [] |} ];
                    Http.relatedTools := [];
                    Http.category := "Contact Management" |}).
Proof. repeat split. Qed.

(** The helper of the HTTP route lacks three cues of the classifier. *)
Example getToolCategory_differs :
  Http.getToolCategory "list_transactions" = "Other"
  /\ classifySpec "list_transactions" = "Payments & Billing".
Proof. split; reflexivity. Qed.

Example related_tools_example :
  Describe.findRelatedTools (plainTool "get_contact" "")
    (map (fun nm => plainTool nm "")
       [ "create_contact"; "get_contact"; "send_sms"; "update_contact";
         "delete_contact"; "upsert_contact"; "add_contact_tags";
         "remove_contact_tags" ])
  = [ "create_contact"; "update_contact"; "delete_contact"; "upsert_contact";
      "add_contact_tags" ].
Proof. reflexivity. Qed.

(* ================================================================== *)
(** * Further properties of the dispatch chain *)
(* ================================================================== *)

(** X1: one invocation makes at most one group call, the same on both
    transports: a name with an owner adds exactly the call of that owner
    with the requested name and [args || {}] to the log, whatever the
    group answers, and a name without an owner adds nothing. *)
Theorem handler_single_call (b : Behaviour) (nm : string)
  (args : option (list (string * JSON))) (log : list Call) :
  snd (Stdio.callToolHandler b nm args log)
  = snd (Http.callToolHandler b nm args log)
  /\ snd (Http.callToolHandler b nm args log)
     = match Http.owner nm with
       | Some g => (log ++ [ mkCall g nm (orEmpty args) ])%list
       | None => log
       end.
Proof.
  unfold Stdio.callToolHandler, Http.callToolHandler, tryCatch, bind.
  rewrite route_same, Http_routeCall_owner.
  destruct (Http.owner nm) as [g |]; unfold execute, throw, ret; simpl.
  - destruct (b log g nm (orEmpty args)); simpl; auto.
  - auto.
Qed.

(** X2: the HTTP handler is the stdio handler followed by the [catch]
    translation: it succeeds exactly when the stdio handler does, with the
    same envelope and the same calls, and it fails with [InvalidRequest]
    exactly when the stdio handler throws an [Error] instance whose message
    contains 404. *)
Theorem http_translates_stdio (b : Behaviour) (nm : string)
  (args : option (list (string * JSON))) (log : list Call) :
  Http.callToolHandler b nm args log
  = match Stdio.callToolHandler b nm args log with
    | (inl e, log') => (inl (Http.translate e), log')
    | (inr r, log') => (inr r, log')
    end
  /\ (forall r log',
        Http.callToolHandler b nm args log = (inr r, log')
        <-> Stdio.callToolHandler b nm args log = (inr r, log'))
  /\ (forall e log',
        Http.callToolHandler b nm args log = (inl e, log') ->
        (code e = InvalidRequest
         <-> exists n m,
               Stdio.callToolHandler b nm args log
               = (inl (ErrorInstance n m), log')
               /\ strIncludes m "404" = true)).
Proof.
  assert (E : Http.callToolHandler b nm args log
              = match Stdio.callToolHandler b nm args log with
                | (inl e, log') => (inl (Http.translate e), log')
                | (inr r, log') => (inr r, log')
                end).
  { unfold Stdio.callToolHandler, Http.callToolHandler, tryCatch, bind.
    change (Stdio.routeCall b nm args) with (Http.routeCall b nm args).
    destruct (Http.routeCall b nm args log) as [[e | r] l]; reflexivity. }
  split; [exact E |].
  destruct (Stdio.callToolHandler b nm args log) as [[e | r] l]; split.
  - intros r log'. rewrite E. split; intro H; discriminate H.
  - intros e' log' H. rewrite E in H. injection H as <- <-.
    unfold Http.translate. simpl. split.
    + destruct e as [n m | s]; simpl; intro H.
      * destruct (strIncludes m "404") eqn:I; [| discriminate H].
        exists n, m. auto.
      * discriminate H.
    + intros [n [m [H I]]]. injection H as ->. simpl. now rewrite I.
  - intros r' log'. rewrite E.
    split; intro H; injection H as <- <-; reflexivity.
  - intros e log' H. rewrite E in H. discriminate H.
Qed.

Lemma allDistinct_NoDup l : allDistinct l = true -> NoDup l.
Proof.
  induction l as [| x l IH]; simpl; intro H; [constructor |].
  apply andb_true_iff in H. destruct H as [Hx Hl].
  constructor; [| now apply IH].
  intro Hin. apply includes_In in Hin. rewrite Hin in Hx. discriminate.
Qed.

Lemma find_unique_perm {A : Type} (p : A -> bool) (l l' : list A) :
  (forall x y, In x l -> In y l -> p x = true -> p y = true -> x = y) ->
  Permutation l l' -> find p l = find p l'.
Proof.
  intros U P.
  destruct (find p l) as [x |] eqn:F; destruct (find p l') as [y |] eqn:F';
    try reflexivity.
  - apply find_some in F, F'. destruct F as [Hx Px], F' as [Hy Py].
    f_equal. apply U; auto. eapply Permutation_in; [symmetry; exact P | exact Hy].
  - apply find_some in F. destruct F as [Hx Px].
    eapply find_none in F'; [| eapply Permutation_in; [exact P | exact Hx]].
    congruence.
  - apply find_some in F'. destruct F' as [Hy Py].
    eapply find_none in F; [| eapply Permutation_in; [symmetry; exact P | exact Hy]].
    congruence.
Qed.

(** X3: the membership lists hold 249 names and none twice, within a list
    or across lists, so the order of the tests in the if/else chain does
    not matter: testing the groups in any other order finds the same
    owner. *)
Theorem chain_order_irrelevant :
  NoDup routableNames
  /\ length routableNames = 249
  /\ (forall nm, In nm routableNames <-> exists g, Http.owns g nm = true)
  /\ (forall gs nm,
        Permutation allGroups gs ->
        find (fun g => Http.owns g nm) gs = Http.owner nm).
Proof.
  split; [| split; [| split]].
  - apply allDistinct_NoDup. vm_compute. reflexivity.
  - reflexivity.
  - intro nm. unfold routableNames. rewrite in_concat. split.
    + intros [l [Hl Hin]]. apply in_map_iff in Hl. destruct Hl as [g [<- _]].
      exists g. rewrite Http_owns_names. now apply includes_In.
    + intros [g Hg]. exists (Http.names g). split.
      * apply in_map, In_allGroups.
      * apply includes_In. now rewrite <- Http_owns_names.
  - intros gs nm P. rewrite Http_owner_find. symmetry.
    apply find_unique_perm; [| exact P].
    intros x y _ _. apply Http_owns_unique.
Qed.

(* ================================================================== *)
(** * Further properties of the classifier *)
(* ================================================================== *)

Lemma categorize_concat_perm ts :
  Permutation (concat (map tools (Http.categorizeTools ts))) (map name ts).
Proof.
  rewrite categorizeTools_buckets, concat_sorted_perm, concat_nonEmpty.
  apply buckets_partition; [apply labels_NoDup |].
  intros t _. apply classifySpec_label.
Qed.

Lemma count_is_length ts c :
  In c (Http.categorizeTools ts) -> count c = length (tools c).
Proof.
  intro H. apply In_categorizeTools in H. destruct H as [l [_ [_ ->]]].
  simpl. now rewrite arrSort_length.
Qed.

Lemma sum_counts_lengths (cs : list Category) :
  (forall c, In c cs -> count c = length (tools c)) ->
  list_sum (map count cs) = length (concat (map tools cs)).
Proof.
  induction cs as [| c cs IH]; intro H; simpl; [reflexivity |].
  rewrite length_app, (H c (or_introl eq_refl)), IH; [reflexivity |].
  intros c' Hc'. apply H. now right.
Qed.

(** X4: the counts of the categories add up to the number of tools given,
    and the classifier answers no category exactly for the empty catalog. *)
Theorem category_counts_sum (ts : list ToolDefinition) :
  list_sum (map count (Http.categorizeTools ts)) = length ts
  /\ (Http.categorizeTools ts = [] <-> ts = []).
Proof.
  assert (S : list_sum (map count (Http.categorizeTools ts)) = length ts).
  { rewrite sum_counts_lengths by apply count_is_length.
    rewrite (Permutation_length (categorize_concat_perm ts)).
    apply length_map. }
  split; [exact S |]. split.
  - intro E. rewrite E in S. simpl in S.
    destruct ts; [reflexivity | discriminate S].
  - intros ->. reflexivity.
Qed.

Lemma nonEmpty_labelUsed ts l : nonEmpty ts l = labelUsed ts l.
Proof.
  unfold nonEmpty, labelUsed, bucket.
  induction ts as [| t ts IH]; simpl; [reflexivity |].
  destruct (classifySpec (name t) =? l); simpl; [reflexivity | exact IH].
Qed.

(** X5: the categories come out in the fixed order of the nine labels, a
    label being present exactly when some tool is classified under it. *)
Theorem categories_in_label_order (ts : list ToolDefinition) :
  map catName (Http.categorizeTools ts) = filter (labelUsed ts) labels
  /\ map catName (Describe.categorizeTools ts) = filter (labelUsed ts) labels.
Proof.
  assert (E : map catName (Http.categorizeTools ts)
              = filter (labelUsed ts) labels).
  { rewrite categorizeTools_buckets, map_map.
    rewrite (map_ext _ (fun l => l)) by reflexivity.
    rewrite map_id. apply filter_ext. apply nonEmpty_labelUsed. }
  split; [exact E |]. rewrite Describe_categorizeTools_same. exact E.
Qed.

(** ** The sorted member lists do not depend on the catalog order *)

Lemma lexLe_antisym a b : lexLe a b -> lexLe b a -> a = b.
Proof. apply String.leb_antisym. Qed.

Lemma sorted_perm_eq (l1 : list string) : forall l2,
  StronglySorted lexLe l1 -> StronglySorted lexLe l2 ->
  Permutation l1 l2 -> l1 = l2.
Proof.
  induction l1 as [| a l1 IH]; intros l2 S1 S2 P.
  - apply Permutation_nil in P. now subst.
  - destruct l2 as [| b l2].
    + symmetry in P. apply Permutation_nil in P. discriminate.
    + inversion S1 as [| ? ? S1' F1]; inversion S2 as [| ? ? S2' F2]; subst.
      rewrite Forall_forall in F1, F2.
      assert (E : a = b).
      { assert (Ha : In a (b :: l2))
          by (eapply Permutation_in; [exact P | now left]).
        assert (Hb : In b (a :: l1))
          by (eapply Permutation_in; [symmetry; exact P | now left]).
        destruct Ha as [-> | Ha]; [reflexivity |].
        destruct Hb as [-> | Hb]; [reflexivity |].
        apply lexLe_antisym; [now apply F1 | now apply F2]. }
      subst b. f_equal. apply IH; try assumption.
      eapply Permutation_cons_inv. exact P.
Qed.

Lemma arrSort_perm_eq l l' : Permutation l l' -> arrSort l = arrSort l'.
Proof.
  intro P. apply sorted_perm_eq; try apply arrSort_strongly_sorted.
  rewrite (arrSort_perm l), (arrSort_perm l'). exact P.
Qed.

Lemma filter_perm {A : Type} (p : A -> bool) (l l' : list A) :
  Permutation l l' -> Permutation (filter p l) (filter p l').
Proof.
  induction 1 as [| x l l' P IH | x y l | l l' l'' P1 IH1 P2 IH2]; simpl.
  - constructor.
  - destruct (p x); [now constructor | exact IH].
  - destruct (p x), (p y); try reflexivity. apply perm_swap.
  - now transitivity (filter p l').
Qed.

(** X6: the output of the classifier depends on the names only as a
    collection: two catalogs whose names are rearrangements of each other
    get the same categories, counts and member lists. *)
Theorem categorize_order_independent (ts ts' : list ToolDefinition) :
  Permutation (map name ts) (map name ts') ->
  Http.categorizeTools ts = Http.categorizeTools ts'
  /\ Describe.categorizeTools ts = Describe.categorizeTools ts'.
Proof.
  intro P.
  assert (B : forall l, Permutation (bucket l ts) (bucket l ts')).
  { intro l. rewrite !bucket_names. now apply filter_perm. }
  assert (E : Http.categorizeTools ts = Http.categorizeTools ts').
  { rewrite !categorizeTools_buckets.
    rewrite (filter_ext (nonEmpty ts) (nonEmpty ts')).
    - apply map_ext. intro l. unfold categoryOf.
      now rewrite (Permutation_length (B l)), (arrSort_perm_eq _ _ (B l)).
    - intro l. unfold nonEmpty. now rewrite (Permutation_length (B l)). }
  split; [exact E |]. rewrite !Describe_categorizeTools_same. exact E.
Qed.

Lemma categorize_order_independent_witness :
  Permutation (map name [ plainTool "send_sms" ""; plainTool "get_contact" "" ])
              (map name [ plainTool "get_contact" "second"; plainTool "send_sms" "first" ])
  /\ Http.categorizeTools [ plainTool "send_sms" ""; plainTool "get_contact" "" ]
     = Http.categorizeTools
         [ plainTool "get_contact" "second"; plainTool "send_sms" "first" ].
Proof.
  split; [apply perm_swap |].
  apply (categorize_order_independent
           [ plainTool "send_sms" ""; plainTool "get_contact" "" ]
           [ plainTool "get_contact" "second"; plainTool "send_sms" "first" ]).
  apply perm_swap.
Defined.

(** ** The label of the describe route against the listing *)

(** X7: for a tool whose lower-cased name contains none of event,
    transaction and campaign, the label the describe route reports is the
    name of the category that lists the tool. *)
Theorem route_category_matches_listing (ts : list ToolDefinition)
  (t : ToolDefinition) :
  In t ts ->
  strIncludes (toLowerCase (name t)) "event" = false ->
  strIncludes (toLowerCase (name t)) "transaction" = false ->
  strIncludes (toLowerCase (name t)) "campaign" = false ->
  exists c,
    In c (Http.categorizeTools ts)
    /\ In (name t) (tools c)
    /\ catName c = Http.getToolCategory (name t).
Proof.
  intros Ht He Htr Hc.
  exists (categoryOf ts (classifySpec (name t))). split; [| split].
  - now apply own_category_listed.
  - simpl. apply arrSort_In, In_bucket. exists t. auto.
  - simpl. symmetry. now apply getToolCategory_agrees.
Qed.

Lemma route_category_matches_listing_witness :
  exists c,
    In c (Http.categorizeTools [ searchTool ])
    /\ In "search_contacts" (tools c)
    /\ catName c = Http.getToolCategory "search_contacts".
Proof.
  apply (route_category_matches_listing [ searchTool ] searchTool);
    [now left | reflexivity | reflexivity | reflexivity].
Defined.

Lemma routable_label_check :
  forallb (fun nm =>
             (Http.getToolCategory nm =? classifySpec nm)
             || (nm =? "list_transactions")
             || (nm =? "get_transaction_by_id")) routableNames = true.
Proof. vm_compute. reflexivity. Qed.

(** X8: among the names the dispatch chain accepts, the label of the
    describe route differs from the classifier's for list_transactions and
    get_transaction_by_id only; for those two the route says Other and the
    classifier Payments & Billing. *)
Theorem routable_labels_differ_twice (g : Group) (nm : string) :
  Http.owns g nm = true ->
  (Http.getToolCategory nm = classifySpec nm
   \/ nm = "list_transactions" \/ nm = "get_transaction_by_id")
  /\ (nm = "list_transactions" \/ nm = "get_transaction_by_id" ->
      Http.getToolCategory nm = "Other"
      /\ classifySpec nm = "Payments & Billing").
Proof.
  intro Hg. split.
  - pose proof routable_label_check as H. rewrite forallb_forall in H.
    assert (Hin : In nm routableNames).
    { unfold routableNames. apply in_concat. exists (Http.names g). split.
      - apply in_map, In_allGroups.
      - apply includes_In. now rewrite <- Http_owns_names. }
    specialize (H nm Hin).
    apply orb_true_iff in H. destruct H as [H | H].
    + apply orb_true_iff in H. destruct H as [H | H].
      * left. now apply String.eqb_eq.
      * right. left. now apply String.eqb_eq.
    + right. right. now apply String.eqb_eq.
  - intros [-> | ->]; split; reflexivity.
Qed.

Lemma routable_labels_differ_twice_witness :
  Http.getToolCategory "list_transactions" = "Other"
  /\ classifySpec "list_transactions" = "Payments & Billing".
Proof.
  apply (routable_labels_differ_twice PaymentsTools "list_transactions");
    [reflexivity | now left].
Defined.

(** ** Substrings and letter case *)

Lemma prefix_app (w rest : string) : prefix w (w ++ rest) = true.
Proof.
  induction w as [| c w IH]; simpl.
  - now destruct rest.
  - destruct (ascii_dec c c); [exact IH | congruence].
Qed.

Lemma strIncludes_app (pre w post : string) :
  strIncludes (pre ++ w ++ post) w = true.
Proof.
  induction pre as [| c pre IH].
  - change ("" ++ w ++ post) with (w ++ post).
    apply prefix_strIncludes, prefix_app.
  - change (String c pre ++ w ++ post) with (String c (pre ++ w ++ post)).
    now apply strIncludes_tail.
Qed.

Lemma prefix_split (w s : string) :
  prefix w s = true -> exists post, s = w ++ post.
Proof.
  revert s. induction w as [| c w IH]; intros s H.
  - exists s. reflexivity.
  - destruct s as [| d s]; simpl in H; [discriminate |].
    destruct (ascii_dec c d); [| discriminate]. subst d.
    destruct (IH s H) as [post ->]. now exists post.
Qed.

Lemma strIncludes_split (s w : string) :
  strIncludes s w = true -> exists pre post, s = pre ++ w ++ post.
Proof.
  induction s as [| c s IH]; cbn [strIncludes]; intro H.
  - destruct (prefix w "") eqn:P; [| discriminate].
    apply prefix_split in P. destruct P as [post ->]. now exists "", post.
  - destruct (prefix w (String c s)) eqn:P.
    + apply prefix_split in P. destruct P as [post ->]. now exists "", post.
    + destruct (IH H) as [pre [post ->]]. now exists (String c pre), post.
Qed.

Lemma toLowerCase_app (a b : string) :
  toLowerCase (a ++ b) = toLowerCase a ++ toLowerCase b.
Proof. induction a as [| c a IH]; simpl; [reflexivity | now rewrite IH]. Qed.

Lemma toLowerChar_idem (c : ascii) : toLowerChar (toLowerChar c) = toLowerChar c.
Proof.
  destruct c as [[] [] [] [] [] [] [] []]; reflexivity.
Qed.

Lemma toLowerCase_idem (s : string) :
  toLowerCase (toLowerCase s) = toLowerCase s.
Proof.
  induction s as [| c s IH]; simpl; [reflexivity |].
  now rewrite toLowerChar_idem, IH.
Qed.

(** X9: a name that contains the word contact in any letter case is
    classified Contact Management by the classifier and by the describe
    route, whatever other cues it contains, and is listed under that
    category. *)
Theorem contact_wins_any_case (pre x post : string) :
  toLowerCase x = "contact" ->
  classifySpec (pre ++ x ++ post) = "Contact Management"
  /\ Http.getToolCategory (pre ++ x ++ post) = "Contact Management"
  /\ (forall ts t, In t ts -> name t = pre ++ x ++ post ->
        In (name t) (tools (categoryOf ts "Contact Management"))
        /\ In (categoryOf ts "Contact Management") (Http.categorizeTools ts)).
Proof.
  intro Hx.
  assert (I : strIncludes (toLowerCase (pre ++ x ++ post)) "contact" = true).
  { rewrite !toLowerCase_app, Hx. apply strIncludes_app. }
  assert (C : classifySpec (pre ++ x ++ post) = "Contact Management").
  { unfold classifySpec. cbn [firstMatch priorityRules existsb].
    now rewrite I. }
  split; [exact C |]. split.
  - unfold Http.getToolCategory. cbv zeta. now rewrite I.
  - intros ts t Ht Hn. rewrite <- C, <- Hn. split.
    + simpl. apply arrSort_In, In_bucket. exists t. auto.
    + now apply own_category_listed.
Qed.

Lemma contact_wins_any_case_witness :
  classifySpec ("Send_Email_To_" ++ "CONTACT" ++ "_event")
  = "Contact Management".
Proof.
  apply (contact_wins_any_case "Send_Email_To_" "CONTACT" "_event").
  reflexivity.
Defined.

(** The classifiers read a name through [toLowerCase] only. *)
Lemma classification_ignores_case (nm nm' : string) :
  toLowerCase nm = toLowerCase nm' ->
  classifySpec nm = classifySpec nm'
  /\ Http.getToolCategory nm = Http.getToolCategory nm'
  /\ classifySpec (toLowerCase nm) = classifySpec nm.
Proof.
  intro H. unfold classifySpec, Http.getToolCategory.
  rewrite toLowerCase_idem, H. auto.
Qed.



(* ================================================================== *)
(** * Further properties of the example builders *)
(* ================================================================== *)

Lemma assoc_In_key {A : Type} (k : string) (kvs : list (string * A)) :
  In k (map fst kvs) <-> assoc k kvs <> None.
Proof.
  induction kvs as [| [k0 v0] kvs IH]; simpl.
  - split; [tauto | congruence].
  - destruct (k0 =? k) eqn:E.
    + apply String.eqb_eq in E. split; [congruence | auto].
    + apply String.eqb_neq in E. rewrite <- IH. tauto.
Qed.

Lemma replaceProp_keys {A : Type} (k : string) (v : A) kvs :
  map fst (replaceProp k v kvs) = map fst kvs.
Proof.
  induction kvs as [| [k0 v0] kvs IH]; simpl; [reflexivity |].
  destruct (k0 =? k); simpl; [reflexivity | now rewrite IH].
Qed.

Lemma insertIndex_keys {A : Type} (i : N) (k : string) (v : A) kvs :
  Permutation (map fst (insertIndex i k v kvs)) (k :: map fst kvs).
Proof.
  induction kvs as [| [k0 v0] kvs IH]; simpl; [reflexivity |].
  destruct (arrayIndex k0) as [j |]; [destruct (N.ltb i j) |];
    try reflexivity.
  simpl. rewrite IH. apply perm_swap.
Qed.

Lemma setProp_NoDup {A : Type} (k : string) (v : A) kvs :
  NoDup (map fst kvs) -> NoDup (map fst (setProp k v kvs)).
Proof.
  intro H. unfold setProp. destruct (k =? "__proto__"); [exact H |].
  destruct (assoc k kvs) as [v0 |] eqn:E.
  - now rewrite replaceProp_keys.
  - assert (Hk : ~ In k (map fst kvs)).
    { rewrite assoc_In_key. congruence. }
    destruct (arrayIndex k) as [i |].
    + eapply Permutation_NoDup;
        [symmetry; apply insertIndex_keys | now constructor].
    + rewrite map_app. simpl.
      eapply Permutation_NoDup;
        [apply Permutation_cons_append | now constructor].
Qed.

Lemma EnumOrder_insertIndex {A : Type} (i : N) (k : string) (v : A) kvs :
  arrayIndex k = Some i ->
  EnumOrder (map fst kvs) -> EnumOrder (map fst (insertIndex i k v kvs)).
Proof.
  intro Hk. induction kvs as [| [k0 v0] kvs IH]; simpl; intro H.
  - eapply EnumIndex; [exact Hk | intros k' j [] | exact H].
  - destruct (arrayIndex k0) as [j |] eqn:E0.
    + inversion H as [l F | k1 j1 l E1 Hle Hrest]; subst.
      * inversion F as [| ? ? F0 _]; subst. congruence.
      * assert (j1 = j) by congruence. subst j1.
        destruct (N.ltb i j) eqn:L.
        -- apply N.ltb_lt in L. simpl.
           eapply EnumIndex; [exact Hk | | exact H].
           intros k' j' [<- | Hin] E'.
           ++ assert (j' = j) by congruence. lia.
           ++ specialize (Hle k' j' Hin E'). lia.
        -- apply N.ltb_ge in L. simpl.
           eapply EnumIndex; [exact E0 | | now apply IH].
           intros k' j' Hin E'.
           apply (Permutation_in _ (insertIndex_keys i k v kvs)) in Hin.
           destruct Hin as [<- | Hin].
           ++ assert (j' = i) by congruence. lia.
           ++ now apply (Hle k' j').
    + simpl. eapply EnumIndex; [exact Hk | | exact H].
      intros k' j' Hin E'.
      inversion H as [l F | k1 j1 l E1 Hle Hrest]; subst;
        [| congruence].
      rewrite Forall_forall in F. specialize (F k' Hin). congruence.
Qed.

Lemma EnumOrder_app_last (k : string) (keys : list string) :
  arrayIndex k = None -> EnumOrder keys -> EnumOrder (keys ++ [k])%list.
Proof.
  intros Hk H. induction H as [l F | k0 i l E Hle Hrest IH].
  - apply EnumStrings. apply Forall_app. split; [exact F |].
    now repeat constructor.
  - simpl. eapply EnumIndex; [exact E | | exact IH].
    intros k' j Hin E'. apply in_app_or in Hin.
    destruct Hin as [Hin | [<- | []]]; [now apply (Hle k' j) | congruence].
Qed.

Lemma setProp_EnumOrder {A : Type} (k : string) (v : A) kvs :
  EnumOrder (map fst kvs) -> EnumOrder (map fst (setProp k v kvs)).
Proof.
  intro H. unfold setProp. destruct (k =? "__proto__"); [exact H |].
  destruct (assoc k kvs) as [v0 |].
  - now rewrite replaceProp_keys.
  - destruct (arrayIndex k) as [i |] eqn:E.
    + now apply EnumOrder_insertIndex.
    + rewrite map_app. now apply EnumOrder_app_last.
Qed.

Lemma httpStep_fold (t : ToolDefinition) (schema : InputSchema)
  (props : list (string * JSON)) :
  inputSchema t = Some schema -> properties schema = Some props ->
  Http.generateExampleArgs t = fold_left httpStep (requiredOf schema) [].
Proof.
  intros Hs Hp. unfold Http.generateExampleArgs. rewrite Hs, Hp.
  fold (requiredOf schema). generalize (@nil (string * JSON)) as args.
  induction (requiredOf schema) as [| f fs IH]; intro args; [reflexivity |].
  cbn [fold_left]. rewrite IH. f_equal. unfold httpStep, placeholder.
  destruct (strIncludes f "email"); [reflexivity |].
  destruct (strIncludes f "phone"); [reflexivity |].
  now destruct (strIncludes f "id").
Qed.

Lemma httpStep_assoc fields : forall args f,
  assoc f (fold_left httpStep fields args)
  = match (if includes fields f then httpValue f else None) with
    | Some v => Some v
    | None => assoc f args
    end.
Proof.
  apply fold_assign_assoc. intros args x f.
  unfold httpStep, httpValue. rewrite assoc_setProp.
  destruct (x =? f) eqn:E.
  - apply String.eqb_eq in E. subst x. now destruct (f =? "__proto__").
  - now destruct (x =? "__proto__").
Qed.

Lemma httpStep_keys fields : forall args,
  (NoDup (map fst args) -> NoDup (map fst (fold_left httpStep fields args)))
  /\ (EnumOrder (map fst args) ->
      EnumOrder (map fst (fold_left httpStep fields args))).
Proof.
  induction fields as [| x fields IH]; intros args; [tauto |].
  cbn [fold_left]. destruct (IH (httpStep args x)) as [N O]. split; intro H.
  - apply N. now apply setProp_NoDup.
  - apply O. now apply setProp_EnumOrder.
Qed.

(** X10: for a tool with declared properties, [generateExampleArgs] gives
    every required field other than [__proto__] its placeholder string and
    no other key, no key twice even when [required] repeats a field, and
    the keys in enumeration order, array indices first and ascending. *)
Theorem http_example_args (t : ToolDefinition) (schema : InputSchema)
  (props : list (string * JSON)) :
  inputSchema t = Some schema ->
  properties schema = Some props ->
  (forall f,
     assoc f (Http.generateExampleArgs t)
     = if includes (requiredOf schema) f && negb (f =? "__proto__")
       then Some (JString (placeholder f))
       else None)
  /\ (forall f, In f (map fst (Http.generateExampleArgs t))
                <-> In f (requiredOf schema) /\ f <> "__proto__")
  /\ NoDup (map fst (Http.generateExampleArgs t))
  /\ EnumOrder (map fst (Http.generateExampleArgs t)).
Proof.
  intros Hs Hp. rewrite (httpStep_fold t schema props Hs Hp).
  assert (A : forall f,
     assoc f (fold_left httpStep (requiredOf schema) [])
     = if includes (requiredOf schema) f && negb (f =? "__proto__")
       then Some (JString (placeholder f))
       else None).
  { intro f. rewrite httpStep_assoc. unfold httpValue.
    destruct (includes (requiredOf schema) f); [| reflexivity].
    now destruct (f =? "__proto__"). }
  destruct (httpStep_keys (requiredOf schema) []) as [N O].
  split; [exact A |]. split; [| split].
  - intro f. rewrite assoc_In_key, A, <- includes_In.
    destruct (includes (requiredOf schema) f); simpl.
    + destruct (String.eqb_spec f "__proto__") as [P | P]; simpl.
      * split; [congruence | tauto].
      * split; [auto | congruence].
    + split; [congruence | intros [H _]; discriminate H].
  - apply N. constructor.
  - apply O. apply EnumStrings. constructor.
Qed.

Lemma http_example_args_witness :
  Http.generateExampleArgs oddKeysTool
  = [ ("2", JString "example_value");
      ("10", JString "example_value");
      ("name", JString "example_value") ]
  /\ NoDup (map fst (Http.generateExampleArgs oddKeysTool)).
Proof.
  split; [reflexivity |].
  apply (http_example_args oddKeysTool
           {| properties := Some [];
              required := Some [ "name"; "__proto__"; "10"; "2"; "name" ] |}
           []); reflexivity.
Defined.

Lemma fold_left_ext_in {A B : Type} (f g : A -> B -> A) (l : list B) :
  (forall a x, In x l -> f a x = g a x) ->
  forall a, fold_left f l a = fold_left g l a.
Proof.
  induction l as [| x l IH]; intros H a; [reflexivity |].
  cbn [fold_left]. rewrite (H a x (or_introl eq_refl)).
  apply IH. intros a' x' Hx'. apply H. now right.
Qed.

(** X11: when every required field is declared with type string, the
    example of the describe handler carries exactly the arguments
    [generateExampleArgs] builds. *)
Theorem example_builders_agree (t : ToolDefinition) (schema : InputSchema)
  (props : list (string * JSON)) :
  inputSchema t = Some schema ->
  properties schema = Some props ->
  (forall f, In f (requiredOf schema) ->
     exists prop, assoc f props = Some prop
                  /\ truthy prop = true
                  /\ getProp "type" prop = Some (JString "string")) ->
  Describe.generateToolExamples t
  = [ {| Describe.exTool := name t;
         Describe.exArguments := Http.generateExampleArgs t |} ].
Proof.
  intros Hs Hp Hall. rewrite (httpStep_fold t schema props Hs Hp).
  unfold Describe.generateToolExamples. rewrite Hs, Hp.
  fold (requiredOf schema). do 2 f_equal.
  apply fold_left_ext_in. intros args f Hf.
  destruct (Hall f Hf) as [prop [Ha [Ht Hty]]].
  rewrite Ha, Ht, exampleField_value. unfold exampleValue. rewrite Hty.
  reflexivity.
Qed.

Lemma example_builders_agree_witness :
  Describe.generateToolExamples emailTool
  = [ {| Describe.exTool := "verify_email";
         Describe.exArguments := Http.generateExampleArgs emailTool |} ].
Proof.
  apply (example_builders_agree emailTool
           {| properties :=
                Some [ ("email", JObject [ ("type", JString "string") ]);
                       ("contactId", JObject [ ("type", JString "string") ]) ];
              required := Some [ "email"; "contactId"; "email" ] |}
           [ ("email", JObject [ ("type", JString "string") ]);
             ("contactId", JObject [ ("type", JString "string") ]) ]);
    try reflexivity.
  intros f [<- | [<- | [<- | []]]]; eexists; repeat split; reflexivity.
Defined.

(* ================================================================== *)
(** * Further properties of the related-tools search *)
(* ================================================================== *)

Lemma entityMatch_none s :
  Describe.entityMatch s = None ->
  forall w, In w Describe.entityWords -> strIncludes s w = false.
Proof.
  induction s as [| c s IH].
  - intros _ w Hw. simpl in Hw.
    repeat (destruct Hw as [<- | Hw]; [reflexivity |]). destruct Hw.
  - cbn [Describe.entityMatch].
    destruct (find (fun w0 => prefix w0 (String c s)) Describe.entityWords)
      as [w0 |] eqn:E; intro H; [discriminate |].
    intros w Hw. pose proof (find_none _ _ E w Hw) as P. cbn beta in P.
    cbn [strIncludes]. rewrite P. now apply IH.
Qed.

Lemma entityMatch_leftmost s : forall w,
  Describe.entityMatch s = Some w ->
  exists pre post,
    s = pre ++ w ++ post
    /\ forall pre' w' post',
         In w' Describe.entityWords -> s = pre' ++ w' ++ post' ->
         String.length pre <= String.length pre'.
Proof.
  induction s as [| c s IH]; intros w; [discriminate |].
  cbn [Describe.entityMatch].
  destruct (find (fun w0 => prefix w0 (String c s)) Describe.entityWords)
    as [w0 |] eqn:E; intro H.
  - injection H as <-. apply find_some in E. destruct E as [_ E].
    apply prefix_split in E. destruct E as [post E].
    exists "", post. split; [exact E |]. intros. simpl. lia.
  - destruct (IH w H) as [pre [post [Hs Hleft]]].
    exists (String c pre), post. split; [now rewrite Hs |].
    intros pre' w' post' Hw' Hs'. destruct pre' as [| d pre'].
    + exfalso. pose proof (find_none _ _ E w' Hw') as P. cbn beta in P.
      change ("" ++ w' ++ post') with (w' ++ post') in Hs'.
      rewrite Hs', prefix_app in P. discriminate.
    + injection Hs' as -> Hs'. simpl.
      apply le_n_S. eapply Hleft; eassumption.
Qed.

(** X12: the related tools are the first five, in catalog order, of the
    other-named tools whose lower-cased name contains the entity word that
    occurs leftmost in the tool's own lower-cased name; a name without an
    entity word has no related tools. *)
Theorem related_tools_first_five (t : ToolDefinition)
  (catalog : list ToolDefinition) :
  match Describe.entityMatch (toLowerCase (name t)) with
  | Some w =>
      In w Describe.entityWords
      /\ (exists pre post,
            toLowerCase (name t) = pre ++ w ++ post
            /\ forall pre' w' post',
                 In w' Describe.entityWords ->
                 toLowerCase (name t) = pre' ++ w' ++ post' ->
                 String.length pre <= String.length pre')
      /\ Describe.findRelatedTools t catalog
         = firstn 5 (othersWith w t catalog)
      /\ List.length (Describe.findRelatedTools t catalog)
         = Nat.min 5 (List.length (othersWith w t catalog))
  | None =>
      (forall w, In w Describe.entityWords ->
                 strIncludes (toLowerCase (name t)) w = false)
      /\ Describe.findRelatedTools t catalog = []
  end.
Proof.
  unfold Describe.findRelatedTools, slice0.
  destruct (Describe.entityMatch (toLowerCase (name t))) as [w |] eqn:E.
  - split; [apply (entityMatch_sound _ _ E) |].
    split; [apply (entityMatch_leftmost _ _ E) |].
    split; [reflexivity |]. apply length_firstn.
  - split; [apply (entityMatch_none _ E) | reflexivity].
Qed.

(* ================================================================== *)
(** * Further properties of the discovery operations *)
(* ================================================================== *)

(** X13: for every name the describe route and the describe handler
    answer the same definition or both fail; the route answers 404 exactly
    for the names outside the catalog and 200 otherwise; a described tool
    bears the requested name, belongs to the catalog, and describing its
    name gives the same answer again. *)
Theorem describe_agrees_and_repeats (defs : Group -> list ToolDefinition)
  (nm : string) :
  describedByRoute (Http.describeToolRoute defs nm)
  = describedByHandler (Describe.getToolDescription (Http.getAllTools defs) nm)
  /\ (fst (Http.describeToolRoute defs nm) = 404
      <-> ~ In nm (map name (Http.getAllTools defs)))
  /\ (fst (Http.describeToolRoute defs nm) = 200
      <-> In nm (map name (Http.getAllTools defs)))
  /\ (forall t,
        describedByRoute (Http.describeToolRoute defs nm) = Some t ->
        name t = nm
        /\ In t (Http.getAllTools defs)
        /\ Http.describeToolRoute defs (name t) = Http.describeToolRoute defs nm).
Proof.
  unfold Http.describeToolRoute, Describe.getToolDescription.
  destruct (arrFind (fun t0 => name t0 =? nm) (Http.getAllTools defs))
    as [t |] eqn:F; simpl.
  - destruct (find_byName_some _ _ _ F) as [Hin Hn].
    assert (P : In nm (map name (Http.getAllTools defs))).
    { apply in_map_iff. exists t. auto. }
    split; [reflexivity |]. split; [split; [discriminate | tauto] |].
    split; [tauto |].
    intros t' H. injection H as <-.
    split; [exact Hn |]. split; [exact Hin |].
    rewrite Hn, F. cbv zeta. rewrite ?Hn. reflexivity.
  - assert (P : ~ In nm (map name (Http.getAllTools defs))).
    { intro H. apply find_byName_present in H. destruct H as [t H].
      congruence. }
    split; [reflexivity |]. split; [tauto |].
    split; [split; [discriminate | tauto] |].
    intros t H. discriminate H.
Qed.

(** X14: the tool count is the same on every discovery answer (the two
    list handlers, [/describe], [/health], [/capabilities], [/tools] and
    [/]), and the category counts reported by the HTTP list handler,
    [/describe], [/health], [/tools] and [/] each add up to it. *)
Theorem discovery_counts_agree (defs : Group -> list ToolDefinition)
  (now : string) :
  let n := length (Stdio.listToolsHandler defs) in
  length (fst (Http.listToolsHandler defs)) = n
  /\ Http.totalCount (snd (Http.listToolsHandler defs)) = n
  /\ Http.dbToolsCount (Http.describeRoute defs) = n
  /\ length (Http.dbTools (Http.describeRoute defs)) = n
  /\ Http.hbToolsCount (Http.healthRoute defs now) = n
  /\ Http.cbToolsCount (Http.capabilitiesRoute defs) = n
  /\ Http.tbCount (Http.toolsRoute defs) = n
  /\ Http.rbToolsCount (Http.rootRoute defs) = n
  /\ list_sum (map Http.ccCount (Http.hbCategories (Http.healthRoute defs now)))
     = n
  /\ list_sum (map Http.ccCount (Http.rbCategories (Http.rootRoute defs))) = n
  /\ list_sum (map count (Http.dbCategories (Http.describeRoute defs))) = n
  /\ list_sum (map count (Http.categories (snd (Http.listToolsHandler defs))))
     = n
  /\ list_sum (map count (Http.tbCategories (Http.toolsRoute defs))) = n.
Proof.
  intro n.
  assert (S : list_sum (map count (Http.categorizeTools (Http.getAllTools defs)))
              = n).
  { rewrite sum_counts_lengths by apply count_is_length.
    rewrite (Permutation_length (categorize_concat_perm _)).
    apply length_map. }
  repeat split; try reflexivity; try exact S.
  - simpl. apply length_map.
  - simpl. rewrite map_map. exact S.
  - simpl. rewrite map_map. exact S.
Qed.

(* ================================================================== *)
(** * The client configuration *)
(* ================================================================== *)

Lemma envOr_cases v :
  (envOr v "" = "" /\ (v = None \/ v = Some ""))
  \/ (exists s, v = Some s /\ s <> "" /\ envOr v "" = s).
Proof.
  unfold envOr. destruct v as [s |]; [| now left; auto].
  destruct (s =? "") eqn:E.
  - apply String.eqb_eq in E. subst. left. auto.
  - apply String.eqb_neq in E. right. exists s. auto.
Qed.

Lemma nonempty_eqb s : s <> "" -> (s =? "") = false.
Proof. apply String.eqb_neq. Qed.

(** X16: both servers accept the same environments and build the same
    configuration: exactly those where GHL_API_KEY and GHL_LOCATION_ID are
    set and not empty; the configuration carries these two values, the
    version 2021-07-28 and GHL_BASE_URL or, when that is unset or empty,
    the default URL. When the key is missing the HTTP server reports the
    key, whatever the location. *)
Theorem client_configuration (env : Env) :
  (forall c, Stdio.initializeGHLClient env = inr c
             <-> Http.initializeGHLClient env = inr c)
  /\ ((exists c, Http.initializeGHLClient env = inr c)
      <-> (exists k l, env "GHL_API_KEY" = Some k /\ k <> ""
                       /\ env "GHL_LOCATION_ID" = Some l /\ l <> ""))
  /\ (forall c, Http.initializeGHLClient env = inr c ->
        Some (accessToken c) = env "GHL_API_KEY"
        /\ Some (locationId c) = env "GHL_LOCATION_ID"
        /\ version c = "2021-07-28"
        /\ baseUrl c = envOr (env "GHL_BASE_URL")
                         "https://services.leadconnectorhq.com")
  /\ (env "GHL_API_KEY" = None \/ env "GHL_API_KEY" = Some "" ->
      Http.initializeGHLClient env
      = inl (newError "GHL_API_KEY environment variable is required")).
Proof.
  unfold Stdio.initializeGHLClient, Http.initializeGHLClient. cbv zeta.
  cbn [accessToken locationId].
  destruct (envOr_cases (env "GHL_API_KEY")) as [[Ka Kv] | [k [Kv [Kne Ka]]]];
    destruct (envOr_cases (env "GHL_LOCATION_ID"))
      as [[La Lv] | [l [Lv [Lne La]]]];
    rewrite Ka, La;
    rewrite ?String.eqb_refl, ?(nonempty_eqb _ Kne), ?(nonempty_eqb _ Lne);
    cbn [orb].
  - split; [intro c; split; intro H; discriminate H |].
    split; [split; [intros [c H]; discriminate H |] |].
    { intros [k [l [H1 [H2 _]]]]. destruct Kv; congruence. }
    split; [intros c H; discriminate H | reflexivity].
  - split; [intro c; split; intro H; discriminate H |].
    split; [split; [intros [c H]; discriminate H |] |].
    { intros [k [l' [H1 [H2 _]]]]. destruct Kv; congruence. }
    split; [intros c H; discriminate H | reflexivity].
  - split; [intro c; split; intro H; discriminate H |].
    split; [split; [intros [c H]; discriminate H |] |].
    { intros [k' [l [_ [_ [H3 H4]]]]]. destruct Lv; congruence. }
    split; [intros c H; discriminate H |].
    intros [H | H]; congruence.
  - split; [intro c; tauto |].
    split; [split; [intros _; exists k, l; auto
                   | intros _; eexists; reflexivity] |].
    split; [| intros [H | H]; congruence].
    intros c H. injection H as <-. cbn. rewrite Kv, Lv. auto.
Qed.
